(** * BaseCompleter: the clang completer base class of EasyClangComplete

    A shallow embedding of [plugin/completion/base_complete.py] and the
    properties of its specification.

    Python values are modelled as follows.
    - A [str] is a list of Unicode code points ([text]); a [bytes] object is
      a list of [Byte.byte].
    - An object attribute that the class body declares is looked up first in
      the instance and then in the class ([Slot], [ClassAttrs]); the one
      mutable object declared at class level, the [completions] list, lives
      in a heap of list objects and is held by reference.
    - A method is a computation in the monad [M]: it threads the receiver,
      the class object and the heap, may raise an exception, and records the
      calls it makes on the outside world (logger, subprocess, error
      presenter) as a trace of events.
    - What the file uses but does not define (the host system, the [re] and
      [os.path] modules, the [tools] module, the flags manager, the views and
      the settings of the editor) is gathered in the records [Host], [Tools],
      [View] and [Settings]. *)

From Stdlib Require Import ZArith NArith Ascii String.
From Stdlib.Strings Require Import Byte.
From stdpp Require Import base option list gmap strings.

Local Open Scope N_scope.

(** ** Text *)

Definition char := N.
Definition text := list char.

(** A literal of the source, as code points. *)
Definition str (s : string) : text :=
  List.map N_of_ascii (list_ascii_of_string s).

(** [a < b] on [str]: lexicographic on code points, a proper prefix first. *)
Fixpoint str_lt (a b : text) : bool :=
  match a, b with
  | _, [] => false
  | [], _ :: _ => true
  | x :: a', y :: b' =>
      if x <? y then true
      else if y <? x then false
      else str_lt a' b'
  end.

Definition str_gt (a b : text) : bool := str_lt b a.

(** Truth value of a [str]. *)
Definition str_truthy (s : text) : bool :=
  match s with [] => false | _ => true end.

(** ** [bytes] to [str] *)

(** [''.join(map(chr, output))]: one code point per byte. *)
Definition chr (b : byte) : char := Byte.to_N b.

Definition join_map_chr (output : list byte) : text := List.map chr output.

(** [bytes.decode("utf-8")] with the default strict error handler: [None]
    stands for UnicodeDecodeError. Only well-formed sequences are accepted:
    no overlong form, no surrogate, nothing above U+10FFFF. *)
Definition in_range (lo hi b : N) : bool := (lo <=? b) && (b <=? hi).

Definition continuation (b : N) : bool := in_range 0x80 0xBF b.

Definition low6 (b : N) : N := N.land b 0x3F.

Fixpoint utf8_decode_N (bs : list N) : option text :=
  match bs with
  | [] => Some []
  | b0 :: r0 =>
      if b0 <? 0x80 then
        cons b0 <$> utf8_decode_N r0
      else if in_range 0xC2 0xDF b0 then
        match r0 with
        | b1 :: r1 =>
            if continuation b1 then
              cons (N.shiftl (N.land b0 0x1F) 6 + low6 b1) <$> utf8_decode_N r1
            else None
        | _ => None
        end
      else if in_range 0xE0 0xEF b0 then
        match r0 with
        | b1 :: b2 :: r2 =>
            let lo := if b0 =? 0xE0 then 0xA0 else 0x80 in
            let hi := if b0 =? 0xED then 0x9F else 0xBF in
            if in_range lo hi b1 && continuation b2 then
              cons (N.shiftl (N.land b0 0x0F) 12 + N.shiftl (low6 b1) 6
                    + low6 b2) <$> utf8_decode_N r2
            else None
        | _ => None
        end
      else if in_range 0xF0 0xF4 b0 then
        match r0 with
        | b1 :: b2 :: b3 :: r3 =>
            let lo := if b0 =? 0xF0 then 0x90 else 0x80 in
            let hi := if b0 =? 0xF4 then 0x8F else 0xBF in
            if in_range lo hi b1 && continuation b2 && continuation b3 then
              cons (N.shiftl (N.land b0 0x07) 18 + N.shiftl (low6 b1) 12
                    + N.shiftl (low6 b2) 6 + low6 b3) <$> utf8_decode_N r3
            else None
        | _ => None
        end
      else None
  end.

Definition decode_utf8 (output : list byte) : option text :=
  utf8_decode_N (List.map Byte.to_N output).

(** ** The regular expression [\d\.\d] *)

Section Regex.

(** The class [\d] of the [re] module. *)
Variable digit : char -> bool.

Definition dot : char := 46.

(** The pattern tried at the start of [s]; the result is [match.group()]. *)
Definition match_here (s : text) : option text :=
  match s with
  | a :: b :: c :: _ =>
      if digit a && (b =? dot) && digit c then Some [a; b; c] else None
  | _ => None
  end.

(** [version_regex.search]: the start positions are tried from the left;
    the result is the start and the group of the match object. *)
Fixpoint search (s : text) : option (nat * text) :=
  match match_here s with
  | Some m => Some (0%nat, m)
  | None =>
      match s with
      | [] => None
      | _ :: tl =>
          match search tl with
          | Some (i, m) => Some (S i, m)
          | None => None
          end
      end
  end.

End Regex.

(** The digits of ASCII: the class [\d] below U+0100. *)
Definition ascii_digit (c : char) : bool := in_range 48 57 c.


(** ** Collaborators *)

(** [sublime.View]: [truth] is [bool(view)]; [buffer_id] and [file_name]
    are the results of the methods of these names. [file_name()] is [None]
    for a buffer that was never saved. *)
Record View := {
  truth : bool;
  buffer_id : N;
  file_name : option text;
}.

(** The settings of the plugin, as [init] reads them. *)
Inductive UpdateStrategy := Overwrite | Merge.

Record Settings := {
  project_base_folder : text;
  generate_flags_with_cmake : bool;
  cmake_flags_priority : UpdateStrategy;
  cmake_prefix_paths : list text;
}.

(** [flags_manager.SearchScope] and [flags_manager.FlagsManager]: the
    objects keep the keyword arguments of their constructors. *)
Record SearchScope := {
  from_folder : text;
  to_folder : text;
}.

Record FlagsManager := {
  use_cmake : bool;
  flags_update_strategy : UpdateStrategy;
  fm_cmake_prefix_paths : list text;
  search_scope : SearchScope;
}.

Inductive Severity := Error | Warning.

Record Diagnostic := {
  filePath : text;
  line : N;
  column : N;
  severity : Severity;
  message : text;
}.

(** The compiler variant: [errors_from_output] parses raw output. *)
Record CompilerVariant := {
  errors_from_output : text -> list Diagnostic;
}.

(** Modelled from the spec: [error_vis.CompileErrors], the error presenter,
    is not part of this file. It stores one set of diagnostics per file of a
    view, under what [file_name()] returns; [generate] replaces the set of
    the view's file, [show_regions] hands the stored set to the renderer. *)
Record CompileErrors := {
  err_regions : gmap (option text) (list Diagnostic);
}.

Definition CompileErrors_new : CompileErrors := {| err_regions := ∅ |}.

Definition generate (view : View) (errors : list Diagnostic)
    (ev : CompileErrors) : CompileErrors :=
  {| err_regions := <[file_name view := errors]> (err_regions ev) |}.

Definition stored (view : View) (ev : CompileErrors) : list Diagnostic :=
  default [] (err_regions ev !! file_name view).

(** The exceptions. *)
Inductive Exn :=
| RuntimeError (msg : string)
| NotImplementedError (msg : string)
| KeyError (key : text)
| AttributeError
| TypeError
| ValueError
| UnicodeEncodeError
| UnicodeDecodeError
| OSError
| CalledProcessError (returncode : Z) (output : list byte).

(** What [subprocess.check_output] met. A process ran and exited with a
    code, having written [output] on its standard output and standard error
    taken as one stream; or no process ran and [check_output] raised [e]:
    OSError when the system could not start the shell, ValueError for a
    command with a NUL character, UnicodeEncodeError for a command with a
    lone surrogate. *)
Inductive ProcOutcome :=
| Exited (returncode : Z) (output : list byte)
| NotStarted (e : Exn).

(** The host: the platform, the library modules and the file system. *)
Record Host := {
  platform_system : string;
  re_digit : char -> bool;
  path_dirname : text -> text;
  spawn : text -> bool -> ProcOutcome;
  any_file_modified : FlagsManager -> bool;
}.

(** The module [tools]. *)
Record Tools := {
  OSX_CLANG_VERSION_DICT : gmap text text;
  NO_DEFAULT_COMPLETIONS : Z;
}.

(** ** Objects *)

(** A completion: trigger and contents. *)
Definition Candidate : Type := text * text.

Definition loc := N.

(** An attribute of an instance: not assigned ([Unset], the class is asked)
    or assigned. *)
Inductive Slot (A : Type) :=
| Unset
| Own (a : A).
Arguments Unset {A}.
Arguments Own {A} a.

Definition attr {A} (class_default : A) (s : Slot A) : A :=
  match s with
  | Unset => class_default
  | Own a => a
  end.

(** The attributes of the class object; [None] is Python's [None]. *)
Record ClassAttrs := {
  c_version_str : option text;
  c_error_vis : option CompileErrors;
  c_compiler_variant : option CompilerVariant;
  c_flags_manager : option FlagsManager;
  c_completions : loc;
  c_async_completions_ready : bool;
  c_valid : bool;
}.

Record Instance := {
  i_version_str : Slot (option text);
  i_error_vis : Slot (option CompileErrors);
  i_compiler_variant : Slot (option CompilerVariant);
  i_flags_manager : Slot (option FlagsManager);
  i_completions : Slot loc;
  i_async_completions_ready : Slot bool;
  i_valid : Slot bool;
}.

(** The heap of list objects. *)
Abbreviation Heap := (gmap loc (list Candidate)).

(** The class body (lines 38-47): [completions = []] creates one list. *)
Definition class_body (h : Heap) : ClassAttrs * Heap :=
  let l := fresh (dom h) in
  ({| c_version_str := None;
      c_error_vis := None;
      c_compiler_variant := None;
      c_flags_manager := None;
      c_completions := l;
      c_async_completions_ready := false;
      c_valid := false |},
   <[l := []]> h).

(** A new instance has no attribute of its own. *)
Definition new_instance : Instance :=
  {| i_version_str := Unset;
     i_error_vis := Unset;
     i_compiler_variant := Unset;
     i_flags_manager := Unset;
     i_completions := Unset;
     i_async_completions_ready := Unset;
     i_valid := Unset |}.

Definition set_version_str (v : option text) (i : Instance) : Instance :=
  {| i_version_str := Own v;
     i_error_vis := i_error_vis i;
     i_compiler_variant := i_compiler_variant i;
     i_flags_manager := i_flags_manager i;
     i_completions := i_completions i;
     i_async_completions_ready := i_async_completions_ready i;
     i_valid := i_valid i |}.

Definition set_error_vis (v : option CompileErrors) (i : Instance) : Instance :=
  {| i_version_str := i_version_str i;
     i_error_vis := Own v;
     i_compiler_variant := i_compiler_variant i;
     i_flags_manager := i_flags_manager i;
     i_completions := i_completions i;
     i_async_completions_ready := i_async_completions_ready i;
     i_valid := i_valid i |}.

Definition set_flags_manager (v : option FlagsManager) (i : Instance) : Instance :=
  {| i_version_str := i_version_str i;
     i_error_vis := i_error_vis i;
     i_compiler_variant := i_compiler_variant i;
     i_flags_manager := Own v;
     i_completions := i_completions i;
     i_async_completions_ready := i_async_completions_ready i;
     i_valid := i_valid i |}.

Definition class_set_error_vis (v : option CompileErrors) (c : ClassAttrs)
    : ClassAttrs :=
  {| c_version_str := c_version_str c;
     c_error_vis := v;
     c_compiler_variant := c_compiler_variant c;
     c_flags_manager := c_flags_manager c;
     c_completions := c_completions c;
     c_async_completions_ready := c_async_completions_ready c;
     c_valid := c_valid c |}.

(** ** Exceptions, events and the monad of methods *)

Inductive Level := DEBUG | INFO | WARNING.

(** Calls on the outside world, in the order they are made. A log record
    keeps its level and its format; [CheckOutput] is the call of
    [subprocess.check_output] with [stderr=subprocess.STDOUT], [hide_window]
    telling whether a [startupinfo] that hides the console was passed. *)
Inductive Event :=
| Log (level : Level) (fmt : string)
| CheckOutput (command : text) (shell : bool) (hide_window : bool)
| ErrorsFromOutput (output : text)
| Generate (view : View) (errors : list Diagnostic)
| ShowRegions (view : View) (diagnostics : list Diagnostic).

(** The receiver, its class and the heap. *)
Record State := {
  self : Instance;
  klass : ClassAttrs;
  heap : Heap;
}.

Definition M (A : Type) : Type := State -> (Exn + A) * State * list Event.

#[local] Instance M_ret : MRet M := fun A a s => (inr a, s, []).

#[local] Instance M_bind : MBind M := fun A B k m s =>
  match m s with
  | (inr a, s1, t1) =>
      match k a s1 with
      | (r, s2, t2) => (r, s2, t1 ++ t2)
      end
  | (inl e, s1, t1) => (inl e, s1, t1)
  end.

Definition raise {A} (e : Exn) : M A := fun s => (inl e, s, []).

Definition emit (e : Event) : M unit := fun s => (inr tt, s, [e]).

Definition log (level : Level) (fmt : string) : M unit := emit (Log level fmt).

(** [try: body except ...: handler]; the handler is [None] on an exception
    no clause catches. *)
Definition try_except {A} (body : M A) (handler : Exn -> option (M A)) : M A :=
  fun s =>
    match body s with
    | (inr a, s1, t1) => (inr a, s1, t1)
    | (inl e, s1, t1) =>
        match handler e with
        | Some h =>
            match h s1 with
            | (r, s2, t2) => (r, s2, t1 ++ t2)
            end
        | None => (inl e, s1, t1)
        end
    end.

Definition gets {A} (f : State -> A) : M A := fun s => (inr (f s), s, []).

Definition modify (f : State -> State) : M unit := fun s => (inr tt, f s, []).

Definition with_self (f : Instance -> Instance) (s : State) : State :=
  {| self := f (self s); klass := klass s; heap := heap s |}.

(** Reading an attribute: the instance first, then the class. *)
Definition version_str (s : State) : option text :=
  attr (c_version_str (klass s)) (i_version_str (self s)).
Definition error_vis (s : State) : option CompileErrors :=
  attr (c_error_vis (klass s)) (i_error_vis (self s)).
Definition compiler_variant (s : State) : option CompilerVariant :=
  attr (c_compiler_variant (klass s)) (i_compiler_variant (self s)).
Definition flags_manager (s : State) : option FlagsManager :=
  attr (c_flags_manager (klass s)) (i_flags_manager (self s)).
Definition completions (s : State) : loc :=
  attr (c_completions (klass s)) (i_completions (self s)).
Definition async_completions_ready (s : State) : bool :=
  attr (c_async_completions_ready (klass s)) (i_async_completions_ready (self s)).
Definition valid (s : State) : bool :=
  attr (c_valid (klass s)) (i_valid (self s)).

(** A method call on the object held by [self.error_vis] changes that
    object, wherever the attribute was found. *)
Definition update_error_vis (f : CompileErrors -> CompileErrors) (s : State)
    : State :=
  match i_error_vis (self s) with
  | Own v => with_self (set_error_vis (f <$> v)) s
  | Unset =>
      {| self := self s;
         klass := class_set_error_vis (f <$> c_error_vis (klass s)) (klass s);
         heap := heap s |}
  end.

(** [l.append(x)] on the list object at [l]. *)
Definition list_append (l : loc) (x : Candidate) : M unit :=
  modify (fun s =>
    {| self := self s; klass := klass s;
       heap := alter (fun xs => xs ++ [x]) l (heap s) |}).

(** The same class and heap, with another instance as the receiver. *)
Definition switch_self (i : Instance) (s : State) : State :=
  {| self := i; klass := klass s; heap := heap s |}.

(** [self.completions.append(x)] *)
Definition append_completion (x : Candidate) : M unit :=
  c ← gets completions;
  list_append c x.

(** The contents of the list [self.completions]. *)
Definition read_completions : M (list Candidate) :=
  c ← gets completions;
  l ← gets (fun s => heap s !! c);
  match l with
  | Some xs => mret xs
  | None => raise AttributeError
  end.

(** ** The methods a variant of the completer provides *)

Class Completer := {
  remove : N -> M unit;
  exists_for_view : N -> M bool;
  complete : option View -> N -> bool -> M unit;
  update : option View -> bool -> M unit;
}.

(** [BaseCompleter] itself (lines 111-135, 159-183). *)
Definition BaseCompleter : Completer := {|
  remove := fun _ => raise (NotImplementedError "calling abstract method");
  exists_for_view := fun _ => raise (NotImplementedError "calling abstract method");
  complete := fun _ _ _ => raise (NotImplementedError "calling abstract method");
  update := fun _ _ => raise (NotImplementedError "calling abstract method");
|}.

(** What [get_completions] returns: a tuple or the list alone. *)
Inductive Completions :=
| WithFlags (completions : loc) (flags : Z)
| ListOnly (completions : loc).

Section Methods.

Context (host : Host) (tools : Tools).

(** [subprocess.check_output(command, stderr=subprocess.STDOUT, ...)] *)
Definition check_output (command : text) (shell hide_window : bool)
    : M (list byte) :=
  emit (CheckOutput command shell hide_window);;
  match spawn host command shell with
  | Exited 0 output => mret output
  | Exited returncode output => raise (CalledProcessError returncode output)
  | NotStarted e => raise e
  end.

(** [run_command] (lines 228-254) *)
Definition run_command (command : text) (shell : bool) : M text :=
  try_except
    (let startupinfo := String.eqb (platform_system host) "Windows" in
     output ← check_output command shell startupinfo;
     mret (join_map_chr output))
    (fun e =>
       match e with
       | CalledProcessError returncode output =>
           Some
             (match decode_utf8 output with
              | Some output_text =>
                  log DEBUG " clang process finished with code: %s";;
                  log DEBUG " clang process output: \n%s";;
                  mret output_text
              | None => raise UnicodeDecodeError
              end)
       | _ => None
       end).

(** [not clang_binary] *)
Definition not_str (s : option text) : bool :=
  match s with
  | Some s => negb (str_truthy s)
  | None => true
  end.

(** The rest of the branch [if match:] once [self.version_str] holds the
    group of the match (lines 73-81) *)
Definition remap_version : M unit :=
  v ← gets version_str;
  match v with
  | Some v =>
      (if str_gt v (str "3.8")
          && String.eqb (platform_system host) "Darwin"
       then
         let osx_version := v in
         match OSX_CLANG_VERSION_DICT tools !! osx_version with
         | Some upstream =>
             modify (with_self (set_version_str (Some upstream)));;
             log WARNING " OSX version %s reported. Reducing it to %s. Info: %s"
         | None => raise (KeyError osx_version)
         end
       else mret tt);;
      log INFO " Found clang version: %s"
  | None => raise TypeError
  end.

(** [__init__] (lines 49-86) *)
Definition __init__ (clang_binary : option text) : M unit :=
  if not_str clang_binary then
    raise (RuntimeError "clang binary not defined")
  else
    let check_version_cmd := default [] clang_binary ++ str " -v" in
    log INFO " Getting version from command: `%s`";;
    output_text ← run_command check_version_cmd true;
    match search (re_digit host) output_text with
    | Some (_, group) =>
        modify (with_self (set_version_str (Some group)));;
        remap_version
    | None =>
        raise (RuntimeError " Couldn't find clang version in clang version output.")
    end;;
    modify (with_self (set_error_vis (Some CompileErrors_new))).

(** [BaseCompleter(clang_binary)]: a new instance, initialised; an
    exception of [__init__] leaves no completer. *)
Definition construct (cls : ClassAttrs) (h : Heap) (clang_binary : option text)
    : (Exn + Instance) * list Event :=
  match __init__ clang_binary {| self := new_instance; klass := cls; heap := h |} with
  | (inr _, s, t) => (inr (self s), t)
  | (inl e, _, t) => (inl e, t)
  end.

(** [not view] *)
Definition not_view (view : option View) : bool :=
  match view with
  | Some v => negb (truth v)
  | None => true
  end.

(** [view.buffer_id()] *)
Definition call_buffer_id (view : option View) : M N :=
  match view with
  | Some v => mret (buffer_id v)
  | None => raise AttributeError
  end.

(** [needs_init] (lines 88-109) *)
Definition needs_init `{Completer} (view : option View) : M bool :=
  fm ← gets flags_manager;
  match fm with
  | None =>
      log DEBUG " flags handler not initialized. Do it.";;
      mret true
  | Some fm =>
      if any_file_modified host fm then
        log DEBUG " .clang_complete or CMakeLists.txt were modified. Need to reinit.";;
        mret true
      else
        id ← call_buffer_id view;
        e ← exists_for_view id;
        if (e : bool) then
          log DEBUG " view %s, already has a completer";;
          mret false
        else
          log DEBUG " need to init view '%s'";;
          mret true
  end.

(** [path.dirname(p)]: [None] is no path. *)
Definition call_dirname (p : option text) : M text :=
  match p with
  | Some p => mret (path_dirname host p)
  | None => raise TypeError
  end.

(** [init] (lines 137-157) *)
Definition init (view : option View) (settings : Settings) : M unit :=
  if not_view view then mret tt
  else
    match view with
    | Some v =>
        current_dir ← call_dirname (file_name v);
        let scope :=
          {| from_folder := current_dir;
             to_folder := project_base_folder settings |} in
        modify (with_self (set_flags_manager (Some
          {| use_cmake := generate_flags_with_cmake settings;
             flags_update_strategy := cmake_flags_priority settings;
             fm_cmake_prefix_paths := cmake_prefix_paths settings;
             search_scope := scope |})))
    | None => raise AttributeError
    end.

(** [show_errors] (lines 185-194) *)
Definition show_errors (view : View) (output : text) : M unit :=
  cv ← gets compiler_variant;
  match cv with
  | None => raise AttributeError
  | Some cv =>
      emit (ErrorsFromOutput output);;
      let errors := errors_from_output cv output in
      ev ← gets error_vis;
      match ev with
      | None => raise AttributeError
      | Some _ =>
          emit (Generate view errors);;
          modify (update_error_vis (generate view errors));;
          ev ← gets error_vis;
          match ev with
          | None => raise AttributeError
          | Some ev => emit (ShowRegions view (stored view ev))
          end
      end
  end.

(** [get_completions] (lines 196-210) *)
Definition get_completions (hide_default_completions : bool) : M Completions :=
  if hide_default_completions then
    log DEBUG " hiding default completions";;
    c ← gets completions;
    mret (WithFlags c (NO_DEFAULT_COMPLETIONS tools))
  else
    log DEBUG " adding clang completions to default ones";;
    c ← gets completions;
    mret (ListOnly c).

End Methods.

(** ** Hosts for the examples *)

(** [posixpath.dirname] *)
Definition slash : char := 47.

Fixpoint rstrip_slash_rev (r : text) : text :=
  match r with
  | c :: r' => if c =? slash then rstrip_slash_rev r' else r
  | [] => []
  end.

Fixpoint head_rev (r : text) : text :=
  match r with
  | c :: r' => if c =? slash then r else head_rev r'
  | [] => []
  end.

Definition posix_dirname (p : text) : text :=
  let head := head_rev (rev p) in
  if forallb (N.eqb slash) head then rev head
  else rev (rstrip_slash_rev head).

Definition bytes (s : string) : list byte := list_byte_of_string s.

(** A host of the given platform on which every command gives [outcome]. *)
Definition example_host (system : string) (outcome : ProcOutcome) : Host :=
  {| platform_system := system;
     re_digit := ascii_digit;
     path_dirname := posix_dirname;
     spawn := fun _ _ => outcome;
     any_file_modified := fun _ => false |}.

(** The remap table of the specification's scenario. *)
Definition example_tools : Tools :=
  {| OSX_CLANG_VERSION_DICT := {[ str "9.0" := str "5.0" ]};
     NO_DEFAULT_COMPLETIONS := 24 |}.

Definition example_class : ClassAttrs := fst (class_body ∅).
Definition example_heap : Heap := snd (class_body ∅).

Definition example_state : State :=
  {| self := new_instance; klass := example_class; heap := example_heap |}.

(** The probes of the specification's scenarios, and one more release of
    the vendor's compiler. *)
Definition clang_3_8 : Host :=
  example_host "Linux"
    (Exited 0 (bytes "clang version 3.8.0 (tags/RELEASE_380/final)")).

Definition apple_9_0 : Host :=
  example_host "Darwin"
    (Exited 0 (bytes "Apple LLVM version 9.0.0 (clang-900.0.39.2)")).

Definition apple_9_1 : Host :=
  example_host "Darwin"
    (Exited 0 (bytes "Apple LLVM version 9.1.0 (clang-902.0.39.2)")).

(** A compiler that fails on a source file in Latin-1 and quotes the line
    with the byte 0xE9. *)
Definition latin1_diagnostic : list byte :=
  bytes "a.cpp:1:7: error: expected ';' : caf" ++ [xe9].

Definition latin1_failure : Host :=
  example_host "Linux" (Exited 1 latin1_diagnostic).

Definition clangpp : option text := Some (str "clang++").

(** A variant that keeps the buffer ids of the views it serves. *)
Definition serving (views : list N) : Completer := {|
  remove := fun _ => mret tt;
  exists_for_view := fun view_id => mret (bool_decide (view_id ∈ views));
  complete := fun _ _ _ => mret tt;
  update := fun _ _ => mret tt;
|}.

Definition example_view : View :=
  {| truth := true; buffer_id := 7;
     file_name := Some (str "/proj/src/sub/a.cpp") |}.

Definition closed_view : View :=
  {| truth := false; buffer_id := 0; file_name := None |}.

(** A view on a buffer that was never saved. *)
Definition unsaved_view : View :=
  {| truth := true; buffer_id := 9; file_name := None |}.

Definition example_settings : Settings :=
  {| project_base_folder := str "/proj";
     generate_flags_with_cmake := true;
     cmake_flags_priority := Merge;
     cmake_prefix_paths := [str "/opt/ros"] |}.

Definition example_error : Diagnostic :=
  {| filePath := str "/proj/src/sub/a.cpp"; line := 1; column := 7;
     severity := Error; message := str "expected ';'" |}.

Definition old_error : Diagnostic :=
  {| filePath := str "/proj/src/sub/a.cpp"; line := 3; column := 1;
     severity := Warning; message := str "unused variable" |}.

(** A variant of the compiler that reports one error on any output. *)
Definition example_variant : CompilerVariant :=
  {| errors_from_output := fun _ => [example_error] |}.

(** A completer in use: variant and presenter bound, one old diagnostic
    stored for the example view. *)
Definition example_completer : Instance :=
  {| i_version_str := Own (Some (str "3.8"));
     i_error_vis := Own (Some (generate example_view [old_error] CompileErrors_new));
     i_compiler_variant := Own (Some example_variant);
     i_flags_manager := Unset;
     i_completions := Unset;
     i_async_completions_ready := Unset;
     i_valid := Unset |}.

Definition example_candidate : Candidate := (str "size", str "size()").

(** The same host after a file that gave flags was written to. *)
Definition touched (host : Host) : Host :=
  {| platform_system := platform_system host;
     re_digit := re_digit host;
     path_dirname := path_dirname host;
     spawn := spawn host;
     any_file_modified := fun _ => true |}.

(** The example state once [init] ran for the example view. *)
Definition initialised_state : State :=
  snd (fst (init clang_3_8 (Some example_view) example_settings example_state)).

Definition apple_10_0 : Host :=
  example_host "Darwin"
    (Exited 0 (bytes "Apple LLVM version 10.0.0 (clang-1000.11.45.2)")).

(** ** The words of the specification *)

Section RegexWords.

Variable digit : char -> bool.

(** A text the pattern [\d\.\d] matches as a whole. *)
Definition digit_dot_digit (m : text) : Prop :=
  ∃ a c, m = [a; dot; c] ∧ digit a = true ∧ digit c = true.

(** [m] is a substring of [s] that starts at index [i]. *)
Definition occurs_at (m s : text) (i : nat) : Prop :=
  ∃ pre post, s = pre ++ m ++ post ∧ length pre = i.

(** [m] is the leftmost substring of [s] the pattern matches. *)
Definition leftmost_match (s : text) (i : nat) (m : text) : Prop :=
  digit_dot_digit m ∧ occurs_at m s i ∧
  ∀ j m', digit_dot_digit m' → occurs_at m' s j → (i ≤ j)%nat.

Definition no_match (s : text) : Prop :=
  ∀ j m', digit_dot_digit m' → ¬ occurs_at m' s j.

End RegexWords.

Section ProbeWords.

Context (host : Host).

(** The test of line 240. *)
Definition on_windows : bool := String.eqb (platform_system host) "Windows".

(** The guard of line 73. *)
Definition remap_applies (m : text) : bool :=
  str_gt m (str "3.8") && String.eqb (platform_system host) "Darwin".

(** The command of the version probe (line 64). *)
Definition version_cmd (clang_binary : option text) : text :=
  default [] clang_binary ++ str " -v".

(** Line 86. *)
Definition set_up_error_vis : M unit :=
  modify (with_self (set_error_vis (Some CompileErrors_new))).

End ProbeWords.

(** ** Observations *)

(** The subprocess calls of a trace. *)
Definition is_check_output (e : Event) : bool :=
  match e with
  | CheckOutput _ _ _ => true
  | _ => false
  end.

Definition subprocess_calls (t : list Event) : list Event :=
  List.filter is_check_output t.

(** The host on which every command has the given outcome. *)
Definition with_outcome (host : Host) (outcome : ProcOutcome) : Host :=
  {| platform_system := platform_system host;
     re_digit := re_digit host;
     path_dirname := path_dirname host;
     spawn := fun _ _ => outcome;
     any_file_modified := any_file_modified host |}.

(** Output in ASCII. *)
Definition ascii_bytes (output : list byte) : Prop :=
  Forall (fun b => Byte.to_N b < 0x80) output.

(** The result and the state of a run. *)
Definition result_of {A} (r : (Exn + A) * State * list Event) : Exn + A :=
  fst (fst r).

Definition state_of {A} (r : (Exn + A) * State * list Event) : State :=
  snd (fst r).

Definition trace_of {A} (r : (Exn + A) * State * list Event) : list Event :=
  snd r.

(** The instance with a version string and an empty error presenter of its
    own, and nothing else. *)
Definition built_completer (v : text) : Instance :=
  set_error_vis (Some CompileErrors_new) (set_version_str (Some v) new_instance).

(** The state in which the constructor starts. *)
Definition blank_state (cls : ClassAttrs) (h : Heap) : State :=
  {| self := new_instance; klass := cls; heap := h |}.

(** * Properties *)

Lemma bind_run {A B} (m : M A) (k : A -> M B) (s : State) :
  (m ≫= k) s
  = match m s with
    | (inr a, s1, t1) =>
        match k a s1 with
        | (r, s2, t2) => (r, s2, t1 ++ t2)
        end
    | (inl e, s1, t1) => (inl e, s1, t1)
    end.
Proof. reflexivity. Qed.

(** ** The search of the pattern *)

Section RegexSpec.

Variable digit : char -> bool.

Lemma match_here_Some s m :
  match_here digit s = Some m ↔ digit_dot_digit digit m ∧ occurs_at m s 0.
Proof.
  unfold match_here, digit_dot_digit, occurs_at. split.
  - destruct s as [|a [|b [|c tl]]]; try discriminate.
    destruct (digit a) eqn:Ha; [|discriminate].
    destruct (b =? dot) eqn:Hb; [|discriminate].
    destruct (digit c) eqn:Hc; [|discriminate].
    apply N.eqb_eq in Hb. subst b. simpl. intros [= <-].
    split; [by exists a, c|]. by exists [], tl.
  - intros [(a & c & -> & Ha & Hc) (pre & post & -> & Hpre)].
    destruct pre; [|discriminate]. simpl.
    by rewrite Ha, Hc, ?N.eqb_refl.
Qed.

Lemma occurs_at_cons m x s j :
  occurs_at m (x :: s) (S j) ↔ occurs_at m s j.
Proof.
  unfold occurs_at. split.
  - intros (pre & post & Heq & Hlen). destruct pre as [|y pre]; [discriminate|].
    simpl in *. injection Heq as -> ->. exists pre, post. split; [done|lia].
  - intros (pre & post & -> & Hlen). exists (x :: pre), post.
    split; [done|]. simpl. by rewrite Hlen.
Qed.

Lemma occurs_at_nil m j : digit_dot_digit digit m → ¬ occurs_at m [] j.
Proof.
  intros (a & c & -> & _) (pre & post & Heq & _).
  destruct pre; discriminate.
Qed.

Lemma search_Some s : ∀ i m,
  search digit s = Some (i, m) → leftmost_match digit s i m.
Proof.
  induction s as [|x s IH]; intros i m.
  - simpl. discriminate.
  - cbn [search]. destruct (match_here digit (x :: s)) as [m0|] eqn:Hm.
    + intros [= <- <-]. apply match_here_Some in Hm as [Hd Ho].
      split; [done|]. split; [done|]. intros; lia.
    + destruct (search digit s) as [[i' m']|] eqn:Hs; [|discriminate].
      intros [= <- <-]. destruct (IH _ _ eq_refl) as (Hd & Ho & Hmin).
      split; [done|]. split; [by apply occurs_at_cons|].
      intros [|j] m2 Hd2 Ho2.
      * assert (match_here digit (x :: s) = Some m2) as Hc
          by (by apply match_here_Some).
        congruence.
      * apply occurs_at_cons in Ho2. specialize (Hmin _ _ Hd2 Ho2). lia.
Qed.

Lemma search_None s : search digit s = None → no_match digit s.
Proof.
  induction s as [|x s IH].
  - intros _ j m Hd. by apply occurs_at_nil.
  - cbn [search]. destruct (match_here digit (x :: s)) as [m0|] eqn:Hm;
      [discriminate|].
    destruct (search digit s) as [[i' m']|] eqn:Hs; [discriminate|].
    intros _ [|j] m Hd Ho.
    + assert (match_here digit (x :: s) = Some m) as Hc
        by (by apply match_here_Some).
      congruence.
    + apply occurs_at_cons in Ho. by apply (IH eq_refl j m).
Qed.

(** A match at a given start is determined by the text. *)
Lemma occurs_at_inj m1 m2 s i :
  digit_dot_digit digit m1 → digit_dot_digit digit m2 →
  occurs_at m1 s i → occurs_at m2 s i → m1 = m2.
Proof.
  intros (a1 & c1 & -> & _) (a2 & c2 & -> & _).
  intros (pre1 & post1 & -> & H1) (pre2 & post2 & Heq & H2).
  apply app_inj_1 in Heq as [_ Heq]; [|lia].
  simpl in Heq. congruence.
Qed.

Lemma leftmost_match_search s i m :
  leftmost_match digit s i m → search digit s = Some (i, m).
Proof.
  intros (Hd & Ho & Hmin).
  destruct (search digit s) as [[i' m']|] eqn:Hs.
  - apply search_Some in Hs as (Hd' & Ho' & Hmin').
    assert (i = i') as <-.
    { specialize (Hmin _ _ Hd' Ho'). specialize (Hmin' _ _ Hd Ho). lia. }
    by rewrite (occurs_at_inj m m' s i).
  - apply search_None in Hs. by destruct (Hs i m).
Qed.

Lemma no_match_search s : no_match digit s → search digit s = None.
Proof.
  intros Hn. destruct (search digit s) as [[i m]|] eqn:Hs; [|done].
  apply search_Some in Hs as (Hd & Ho & _). by destruct (Hn i m).
Qed.

End RegexSpec.

(** The search depends on the class [\d] through the characters of the text
    only: on a text below U+0100, as [join_map_chr] gives, any class that
    has the ten digits of ASCII and no other character of that range finds
    what [ascii_digit] finds. *)
Lemma search_digit_class (d1 d2 : char -> bool) (s : text) :
  (∀ c, c ∈ s → d1 c = d2 c) → search d1 s = search d2 s.
Proof.
  induction s as [|x s IH]; intros Hagree; [done|].
  assert (match_here d1 (x :: s) = match_here d2 (x :: s)) as Hhere.
  { unfold match_here. destruct s as [|b [|c tl]]; try done.
    rewrite (Hagree x), (Hagree c); [done| |].
    - by do 2 right; left.
    - by left. }
  cbn [search]. rewrite Hhere, IH; [done|].
  intros c Hc. apply Hagree. by right.
Qed.

(** ** Decoding *)

Lemma utf8_decode_ascii (bs : list N) :
  Forall (fun b => b < 0x80) bs → utf8_decode_N bs = Some bs.
Proof.
  induction 1 as [|b bs Hb _ IH]; [done|].
  cbn [utf8_decode_N]. apply N.ltb_lt in Hb. by rewrite Hb, IH.
Qed.

(** On output in ASCII the two branches of [run_command] give one text. *)
Lemma decode_utf8_ascii (output : list byte) :
  Forall (fun b => Byte.to_N b < 0x80) output →
  decode_utf8 output = Some (join_map_chr output).
Proof.
  intros H. unfold decode_utf8, join_map_chr, chr.
  apply utf8_decode_ascii. by apply Forall_map.
Qed.

(** ** [posixpath.dirname] *)

Lemma head_rev_skip (r rest : text) :
  slash ∉ r → head_rev (r ++ slash :: rest) = slash :: rest.
Proof.
  induction r as [|c r IH]; intros Hr; simpl.
  - done.
  - destruct (c =? slash) eqn:Hc.
    + apply N.eqb_eq in Hc. subst c. destruct Hr. by left.
    + apply IH. intros ?. apply Hr. by right.
Qed.

(** The directory of a file [base] in a directory whose name does not end
    with a slash. *)
Lemma posix_dirname_join (d : text) (c : char) (base : text) :
  c ≠ slash → slash ∉ base →
  posix_dirname ((d ++ [c]) ++ slash :: base) = d ++ [c].
Proof.
  intros Hc Hbase. unfold posix_dirname.
  assert (rev ((d ++ [c]) ++ slash :: base) = rev base ++ slash :: c :: rev d)
    as ->.
  { rewrite !rev_app_distr. simpl. by rewrite <- app_assoc. }
  rewrite head_rev_skip by (by rewrite list_elem_of_In, <- in_rev, <- list_elem_of_In).
  assert ((c =? slash) = false) as Hcb by (by apply N.eqb_neq).
  assert ((slash =? c) = false) as Hcb' by (apply N.eqb_neq; congruence).
  cbn [forallb rstrip_slash_rev]. rewrite N.eqb_refl, Hcb, Hcb'. simpl.
  by rewrite rev_involutive.
Qed.

(** ** [run_command] *)

Section RunCommand.

Context (host : Host).

Lemma run_command_exit_zero command shell output s :
  spawn host command shell = Exited 0 output →
  run_command host command shell s
  = (inr (join_map_chr output), s, [CheckOutput command shell (on_windows host)]).
Proof.
  intros H. unfold run_command, try_except, check_output, mbind, M_bind, emit.
  by rewrite H.
Qed.

Lemma run_command_exit_nonzero command shell returncode output s :
  spawn host command shell = Exited returncode output →
  returncode ≠ 0%Z →
  run_command host command shell s
  = match decode_utf8 output with
    | Some output_text =>
        (inr output_text, s,
         [CheckOutput command shell (on_windows host);
          Log DEBUG " clang process finished with code: %s";
          Log DEBUG " clang process output: \n%s"])
    | None =>
        (inl UnicodeDecodeError, s, [CheckOutput command shell (on_windows host)])
    end.
Proof.
  intros H Hne. unfold run_command, try_except, check_output, mbind, M_bind, emit.
  rewrite H. destruct returncode; [done| |]; simpl;
    by destruct (decode_utf8 output).
Qed.

(** An exception of [check_output] passes through, but for a
    CalledProcessError, which the [except] clause takes as it takes the one
    of a process that exited. *)
Lemma run_command_not_started command shell e s :
  spawn host command shell = NotStarted e →
  run_command host command shell s
  = match e with
    | CalledProcessError returncode output =>
        match decode_utf8 output with
        | Some output_text =>
            (inr output_text, s,
             [CheckOutput command shell (on_windows host);
              Log DEBUG " clang process finished with code: %s";
              Log DEBUG " clang process output: \n%s"])
        | None =>
            (inl UnicodeDecodeError, s,
             [CheckOutput command shell (on_windows host)])
        end
    | _ => (inl e, s, [CheckOutput command shell (on_windows host)])
    end.
Proof.
  intros H. unfold run_command, try_except, check_output, mbind, M_bind, emit.
  rewrite H. destruct e; try done. simpl. by destruct (decode_utf8 output).
Qed.

(** [run_command] changes no attribute and makes one subprocess call. *)
Lemma run_command_frame command shell s r s' t :
  run_command host command shell s = (r, s', t) →
  s' = s ∧ ∃ t', t = CheckOutput command shell (on_windows host) :: t'.
Proof.
  destruct (spawn host command shell) as [rc out|e] eqn:H.
  - destruct (decide (rc = 0%Z)) as [->|Hne].
    + rewrite (run_command_exit_zero _ _ _ _ H). intros [= <- <- <-]. eauto.
    + rewrite (run_command_exit_nonzero _ _ _ _ _ H Hne).
      destruct (decode_utf8 out); intros [= <- <- <-]; eauto.
  - rewrite (run_command_not_started _ _ _ _ H).
    destruct e; try (intros [= <- <- <-]; eauto).
    destruct (decode_utf8 output); intros [= <- <- <-]; eauto.
Qed.

End RunCommand.

(** ** The constructor *)

Section Constructor.

Context (host : Host) (tools : Tools).

Lemma remap_version_eq s m :
  version_str s = Some m →
  remap_version host tools s
  = if remap_applies host m then
      match OSX_CLANG_VERSION_DICT tools !! m with
      | Some upstream =>
          (inr tt, with_self (set_version_str (Some upstream)) s,
           [Log WARNING " OSX version %s reported. Reducing it to %s. Info: %s";
            Log INFO " Found clang version: %s"])
      | None => (inl (KeyError m), s, [])
      end
    else (inr tt, s, [Log INFO " Found clang version: %s"]).
Proof.
  intros Hv. unfold remap_version, remap_applies, mbind, M_bind, gets.
  rewrite Hv. destruct (_ && _); [|done].
  by destruct (OSX_CLANG_VERSION_DICT tools !! m).
Qed.

(** The constructor once the probe has returned [output_text]. *)
Lemma __init___after_probe clang_binary s output_text t :
  not_str clang_binary = false →
  run_command host (version_cmd clang_binary) true s = (inr output_text, s, t) →
  __init__ host tools clang_binary s
  = match search (re_digit host) output_text with
    | Some (_, group) =>
        match (remap_version host tools;; set_up_error_vis)
                (with_self (set_version_str (Some group)) s) with
        | (r, s', t') =>
            (r, s', Log INFO " Getting version from command: `%s`" :: t ++ t')
        end
    | None =>
        (inl (RuntimeError " Couldn't find clang version in clang version output."),
         s, Log INFO " Getting version from command: `%s`" :: t)
    end.
Proof.
  intros Hbin Hrun. unfold __init__, version_cmd in *. rewrite Hbin.
  rewrite bind_run. unfold log at 1, emit at 1. cbv beta iota.
  rewrite bind_run, Hrun.
  destruct (search (re_digit host) output_text) as [[i group]|].
  - rewrite !bind_run. unfold modify at 1. fold set_up_error_vis.
    destruct (remap_version host tools _) as [[[e|[]] s1] t1]; [done|].
    by destruct (set_up_error_vis s1) as [[r s2] t2].
  - unfold raise. simpl. by rewrite app_nil_r.
Qed.

(** C1, as the code has it. For every output text of the version probe
    with a substring the pattern [\d\.\d] matches, [m] being the leftmost
    one: unless the platform is Darwin and [m > "3.8"] (the case of C2), the
    constructor returns a completer whose [version_str] is [m]. If the text
    has no such substring, the construction fails with a RuntimeError and
    there is no completer. *)
Theorem C1_version_is_leftmost_match cls h clang_binary output_text t :
  let s := {| self := new_instance; klass := cls; heap := h |} in
  not_str clang_binary = false →
  run_command host (version_cmd clang_binary) true s = (inr output_text, s, t) →
  (∀ i m, leftmost_match (re_digit host) output_text i m →
     str_gt m (str "3.8") && String.eqb (platform_system host) "Darwin" = false →
     ∃ completer t',
       construct host tools cls h clang_binary = (inr completer, t') ∧
       i_version_str completer = Own (Some m)) ∧
  (no_match (re_digit host) output_text →
   ∃ t',
     construct host tools cls h clang_binary
     = (inl (RuntimeError " Couldn't find clang version in clang version output."),
        t')).
Proof.
  intros s Hbin Hrun. split.
  - intros i m Hm Hno. apply leftmost_match_search in Hm.
    pose proof (__init___after_probe _ _ _ _ Hbin Hrun) as Hinit.
    rewrite Hm in Hinit. unfold construct. fold s. rewrite Hinit.
    rewrite bind_run.
    rewrite (remap_version_eq (with_self (set_version_str (Some m)) s) m eq_refl).
    unfold remap_applies. rewrite Hno. simpl. eauto.
  - intros Hn. apply no_match_search in Hn.
    pose proof (__init___after_probe _ _ _ _ Hbin Hrun) as Hinit.
    rewrite Hn in Hinit. unfold construct. fold s. rewrite Hinit. eauto.
Qed.

(** C2, as the code has it. For every probe output with a substring the
    pattern matches, [m] being the leftmost one: on Darwin, when [m > "3.8"]
    (comparison of strings), the completer holds the entry of the remap table
    for [m] if there is one, and the construction fails with [KeyError m] if
    there is none; when [m > "3.8"] does not hold, or off Darwin, the
    completer holds [m] itself. *)
Theorem C2_remap_or_key_error cls h clang_binary output_text t i m :
  let s := {| self := new_instance; klass := cls; heap := h |} in
  not_str clang_binary = false →
  run_command host (version_cmd clang_binary) true s = (inr output_text, s, t) →
  leftmost_match (re_digit host) output_text i m →
  if str_gt m (str "3.8") && String.eqb (platform_system host) "Darwin" then
    match OSX_CLANG_VERSION_DICT tools !! m with
    | Some upstream =>
        ∃ completer t',
          construct host tools cls h clang_binary = (inr completer, t') ∧
          i_version_str completer = Own (Some upstream)
    | None =>
        ∃ t', construct host tools cls h clang_binary = (inl (KeyError m), t')
    end
  else
    ∃ completer t',
      construct host tools cls h clang_binary = (inr completer, t') ∧
      i_version_str completer = Own (Some m).
Proof.
  intros s Hbin Hrun Hm. apply leftmost_match_search in Hm.
  pose proof (__init___after_probe _ _ _ _ Hbin Hrun) as Hinit.
  rewrite Hm in Hinit. unfold construct. fold s. rewrite Hinit.
  rewrite bind_run.
  rewrite (remap_version_eq (with_self (set_version_str (Some m)) s) m eq_refl).
  unfold remap_applies. destruct (_ && _).
  - destruct (OSX_CLANG_VERSION_DICT tools !! m); simpl; eauto.
  - simpl. eauto.
Qed.

(** C4. With a compiler binary that is unset ([None]) or empty, the
    construction fails with the RuntimeError of line 61, and it has made no
    call at all before: no subprocess was started. *)
Theorem C4_no_binary_no_subprocess cls h :
  construct host tools cls h None
  = (inl (RuntimeError "clang binary not defined"), []) ∧
  construct host tools cls h (Some [])
  = (inl (RuntimeError "clang binary not defined"), []).
Proof. by split. Qed.

End Constructor.

(** The scenarios of the specification. *)
Example scenario_clang_3_8 :
  fst (construct clang_3_8 example_tools example_class example_heap clangpp)
  = inr (set_error_vis (Some CompileErrors_new)
           (set_version_str (Some (str "3.8")) new_instance)).
Proof. vm_compute. reflexivity. Qed.

Example scenario_apple_9_0 :
  fst (construct apple_9_0 example_tools example_class example_heap clangpp)
  = inr (set_error_vis (Some CompileErrors_new)
           (set_version_str (Some (str "5.0")) new_instance)).
Proof. vm_compute. reflexivity. Qed.

Lemma C1_version_is_leftmost_match_witness :
  ∃ completer t',
    construct clang_3_8 example_tools example_class example_heap clangpp
    = (inr completer, t') ∧
    i_version_str completer = Own (Some (str "3.8")).
Proof.
  destruct (C1_version_is_leftmost_match clang_3_8 example_tools
              example_class example_heap clangpp
              (str "clang version 3.8.0 (tags/RELEASE_380/final)")
              [CheckOutput (str "clang++ -v") true false])
    as [Hmatch _].
  - vm_compute. reflexivity.
  - vm_compute. reflexivity.
  - apply (Hmatch 14%nat (str "3.8")).
    + apply search_Some. vm_compute. reflexivity.
    + vm_compute. reflexivity.
Defined.

(** C1 as stated fails: on Darwin the probe reports 9.0.0, the leftmost
    match is 9.0, and the completer holds 5.0, the entry of the table. *)
Lemma C1_counterexample_remapped :
  leftmost_match ascii_digit
    (str "Apple LLVM version 9.0.0 (clang-900.0.39.2)") 19 (str "9.0") ∧
  result_of (run_command apple_9_0 (version_cmd clangpp) true example_state)
  = inr (str "Apple LLVM version 9.0.0 (clang-900.0.39.2)") ∧
  ∃ completer t',
    construct apple_9_0 example_tools example_class example_heap clangpp
    = (inr completer, t') ∧
    i_version_str completer = Own (Some (str "5.0")) ∧
    i_version_str completer ≠ Own (Some (str "9.0")).
Proof.
  split; [apply search_Some; vm_compute; reflexivity|].
  split; [vm_compute; reflexivity|].
  eexists _, _. split; [vm_compute; reflexivity|].
  split; [reflexivity|]. discriminate.
Qed.

Lemma C2_remap_or_key_error_witness :
  ∃ completer t',
    construct apple_9_0 example_tools example_class example_heap clangpp
    = (inr completer, t') ∧
    i_version_str completer = Own (Some (str "5.0")).
Proof.
  assert (leftmost_match ascii_digit
            (str "Apple LLVM version 9.0.0 (clang-900.0.39.2)") 19 (str "9.0"))
    as Hm by (apply search_Some; vm_compute; reflexivity).
  assert (not_str clangpp = false) as Hbin by reflexivity.
  assert (run_command apple_9_0 (version_cmd clangpp) true example_state
          = (inr (str "Apple LLVM version 9.0.0 (clang-900.0.39.2)"),
             example_state, [CheckOutput (str "clang++ -v") true false]))
    as Hrun by (vm_compute; reflexivity).
  exact (C2_remap_or_key_error apple_9_0 example_tools example_class
           example_heap clangpp _ _ _ _ Hbin Hrun Hm).
Defined.

(** C2 as stated fails: on Darwin the probe reports 9.1, the table has no
    entry for it, and the construction ends in a KeyError where the claim
    has a completer of version 9.1. *)
Lemma C2_counterexample_no_table_entry :
  search ascii_digit (str "Apple LLVM version 9.1.0 (clang-902.0.39.2)")
  = Some (19%nat, str "9.1") ∧
  OSX_CLANG_VERSION_DICT example_tools !! str "9.1" = None ∧
  fst (construct apple_9_1 example_tools example_class example_heap clangpp)
  = inl (KeyError (str "9.1")) ∧
  ¬ ∃ completer t',
      construct apple_9_1 example_tools example_class example_heap clangpp
      = (inr completer, t') ∧
      i_version_str completer = Own (Some (str "9.1")).
Proof.
  assert (fst (construct apple_9_1 example_tools example_class example_heap
                 clangpp) = inl (KeyError (str "9.1"))) as Hfail
    by (vm_compute; reflexivity).
  split; [vm_compute; reflexivity|]. split; [vm_compute; reflexivity|].
  split; [exact Hfail|].
  intros (completer & t' & Heq & _). rewrite Heq in Hfail. discriminate.
Qed.

(** C5, where the code departs from it: the compiler exits with code 1 and
    its output is not UTF-8; [run_command] raises UnicodeDecodeError out of
    its [except] clause and returns no text. *)
Theorem C5_run_command_raises_on_latin1 :
  decode_utf8 latin1_diagnostic = None ∧
  run_command latin1_failure (str "clang++ a.cpp") true example_state
  = (inl UnicodeDecodeError, example_state,
     [CheckOutput (str "clang++ a.cpp") true false]).
Proof. split; vm_compute; reflexivity. Qed.

(** The same output with exit code 0 is returned, one code point a byte. *)
Example run_command_latin1_exit_zero :
  fst (fst (run_command (example_host "Linux" (Exited 0 latin1_diagnostic))
              (str "clang++ a.cpp") true example_state))
  = inr (str "a.cpp:1:7: error: expected ';' : caf" ++ [233]).
Proof. vm_compute. reflexivity. Qed.


(** ** [needs_init], [init], [show_errors], [get_completions] *)

Section Lifecycle.

Context (host : Host) (tools : Tools).

(** The answer of [needs_init], from the three tests in their order. *)
Lemma needs_init_answer (variant : Completer) (view : View) (s : State) :
  fst (fst (needs_init host (Some view) s))
  = match flags_manager s with
    | None => inr true
    | Some fm =>
        if any_file_modified host fm then inr true
        else
          match fst (fst (exists_for_view (buffer_id view) s)) with
          | inr has_entry => inr (negb has_entry)
          | inl e => inl e
          end
    end.
Proof.
  unfold needs_init. rewrite bind_run. unfold gets at 1. cbv beta iota.
  destruct (flags_manager s) as [fm|]; [|done].
  destruct (any_file_modified host fm); [done|].
  unfold call_buffer_id. rewrite bind_run. unfold mret at 1, M_ret at 1.
  cbv beta iota. rewrite bind_run.
  by destruct (exists_for_view (buffer_id view) s) as [[[e|[|]] s1] t1].
Qed.

(** C3. [needs_init(view)] returns [True] if and only if no flags manager is
    bound, or [any_file_modified()] is true, or the variant's
    [exists_for_view] says that the view has no entry; it returns [False] if
    and only if none of the three holds. A modified file alone forces the
    answer [True], whatever the variant would say of the view. *)
Theorem C3_needs_init_iff (variant : Completer) (view : View) (s : State) :
  let answer := fst (fst (needs_init host (Some view) s)) in
  let has_entry := fst (fst (exists_for_view (buffer_id view) s)) in
  (answer = inr true ↔
     flags_manager s = None ∨
     (∃ fm, flags_manager s = Some fm ∧ any_file_modified host fm = true) ∨
     has_entry = inr false) ∧
  (answer = inr false ↔
     ∃ fm, flags_manager s = Some fm ∧ any_file_modified host fm = false ∧
           has_entry = inr true) ∧
  (∀ fm, flags_manager s = Some fm → any_file_modified host fm = true →
         answer = inr true).
Proof.
  intros answer has_entry.
  pose proof (needs_init_answer variant view s) as Hans.
  fold answer has_entry in Hans. clearbody answer has_entry.
  destruct (flags_manager s) as [fm|].
  - destruct (any_file_modified host fm) eqn:Hmod.
    + split; [|split].
      * split; [|done]. intros _. right. left. by exists fm.
      * split; [congruence|]. intros (fm' & [= <-] & ? & _). congruence.
      * done.
    + destruct has_entry as [e|[|]]; simpl in Hans; subst answer.
      * split; [|split].
        -- split; [done|]. intros [|[(fm' & [= <-] & ?)|]]; congruence.
        -- split; [done|]. by intros (fm' & _ & _ & ?).
        -- intros fm' [= <-] ?. congruence.
      * split; [|split].
        -- split; [done|]. intros [|[(fm' & [= <-] & ?)|]]; congruence.
        -- split; [|done]. intros _. by exists fm.
        -- intros fm' [= <-] ?. congruence.
      * split; [|split].
        -- split; [|done]. intros _. by right; right.
        -- split; [done|]. by intros (fm' & _ & _ & ?).
        -- done.
  - subst answer. split; [|split].
    + split; [|done]. intros _. by left.
    + split; [done|]. by intros (fm' & ? & _).
    + done.
Qed.

(** C6, as the code has it. For a view whose truth value is true and whose
    [file_name()] is a path, [init(view, settings)] binds [flags_manager] to
    a new FlagsManager: its search scope runs from the directory of the
    view's file to the project base folder of the settings, and its three
    other arguments are those of the settings. No other attribute changes,
    nothing is raised. *)
Theorem C6_init_binds_flags_manager (view : View) (settings : Settings)
    (s : State) (file : text) :
  truth view = true →
  file_name view = Some file →
  let fm :=
    {| use_cmake := generate_flags_with_cmake settings;
       flags_update_strategy := cmake_flags_priority settings;
       fm_cmake_prefix_paths := cmake_prefix_paths settings;
       search_scope :=
         {| from_folder := path_dirname host file;
            to_folder := project_base_folder settings |} |} in
  ∃ s',
    init host (Some view) settings s = (inr tt, s', []) ∧
    flags_manager s' = Some fm ∧
    s' = with_self (set_flags_manager (Some fm)) s.
Proof.
  intros Hview Hfile fm. unfold init, not_view. rewrite Hview, Hfile. simpl.
  by eexists.
Qed.

(** C7. [get_completions] only reads: with [True] it returns the pair of the
    list [self.completions] and the flag that hides the default
    completions, with [False] the list alone, and the state after the call
    is the state before it. *)
Theorem C7_get_completions_reads_only (s : State) :
  get_completions tools true s
  = (inr (WithFlags (completions s) (NO_DEFAULT_COMPLETIONS tools)), s,
     [Log DEBUG " hiding default completions"]) ∧
  get_completions tools false s
  = (inr (ListOnly (completions s)), s,
     [Log DEBUG " adding clang completions to default ones"]).
Proof. by split. Qed.

(** C8. With a compiler variant and an error presenter bound,
    [show_errors(view, output)] makes three calls in this order: the
    variant parses the output, the presenter is given the parsed list for
    the view, the presenter shows the regions of the view. After the call
    the presenter stores for the view's file exactly the parsed list,
    whatever it stored before, and what it stores for other files is
    unchanged; the parsed list is what is shown. *)
Theorem C8_show_errors_steps (view : View) (output : text) (s : State)
    (cv : CompilerVariant) (ev : CompileErrors) :
  compiler_variant s = Some cv →
  error_vis s = Some ev →
  let errors := errors_from_output cv output in
  ∃ s',
    show_errors view output s
    = (inr tt, s',
       [ErrorsFromOutput output; Generate view errors; ShowRegions view errors]) ∧
    error_vis s' = Some (generate view errors ev) ∧
    (∀ ev', error_vis s' = Some ev' →
       stored view ev' = errors ∧
       ∀ file, file ≠ file_name view →
               err_regions ev' !! file = err_regions ev !! file).
Proof.
  intros Hcv Hev errors.
  assert (error_vis (update_error_vis (generate view errors) s)
          = Some (generate view errors ev)) as Hev'.
  { unfold error_vis, update_error_vis in *.
    destruct (i_error_vis (self s)) as [|v] eqn:Hi; simpl in *.
    - by rewrite Hi, Hev.
    - by rewrite Hev. }
  assert (stored view (generate view errors ev) = errors) as Hstored.
  { unfold stored, generate. simpl. by rewrite lookup_insert_eq. }
  exists (update_error_vis (generate view errors) s).
  split; [|split].
  - unfold show_errors. rewrite bind_run. unfold gets at 1. cbv beta iota.
    rewrite Hcv. rewrite bind_run. unfold emit at 1. cbv beta iota.
    rewrite bind_run. unfold gets at 1. cbv beta iota. rewrite Hev.
    rewrite bind_run. unfold emit at 1. cbv beta iota.
    rewrite bind_run. unfold modify at 1. cbv beta iota.
    rewrite bind_run. unfold gets at 1. cbv beta iota. fold errors.
    rewrite Hev'. unfold emit. by rewrite Hstored.
  - exact Hev'.
  - intros ev'. rewrite Hev'. intros [= <-]. split; [exact Hstored|].
    intros file Hne. unfold generate. simpl. by rewrite lookup_insert_ne.
Qed.

(** C10. When the view is null or false, [init] returns at once: nothing is
    raised, no call is made, and the state of the completer, the flags
    manager binding included, is the one before the call. *)
Theorem C10_init_without_view (view : option View) (settings : Settings)
    (s : State) :
  not_view view = true →
  init host view settings s = (inr tt, s, []) ∧
  flags_manager (snd (fst (init host view settings s))) = flags_manager s.
Proof.
  intros Hview. unfold init. by rewrite Hview.
Qed.

End Lifecycle.

(** ** The attributes declared in the class body *)

Lemma class_body_fresh (h : Heap) : h !! c_completions (fst (class_body h)) = None.
Proof. simpl. apply not_elem_of_dom. apply is_fresh. Qed.

Lemma append_completion_run (x : Candidate) (s : State) :
  append_completion x s
  = (inr tt,
     {| self := self s; klass := klass s;
        heap := alter (fun xs => xs ++ [x]) (completions s) (heap s) |},
     []).
Proof. reflexivity. Qed.

Lemma read_completions_run (s : State) (xs : list Candidate) :
  heap s !! completions s = Some xs →
  read_completions s = (inr xs, s, []).
Proof.
  intros H. unfold read_completions. rewrite bind_run. unfold gets at 1.
  cbv beta iota. rewrite bind_run. unfold gets at 1. cbv beta iota.
  by rewrite H.
Qed.

(** C9. [completions], [valid] and [async_completions_ready] are attributes
    of the class: the class body creates one list and two flags, and an
    instance that has assigned none of them reads the values of the class.
    Two instances that have not assigned [completions] read the same list
    object, so that an element appended through one of them is read through
    the other. *)
Theorem C9_class_defaults_are_shared :
  (∀ h0 : Heap,
     let cls := fst (class_body h0) in
     let s := {| self := new_instance; klass := cls; heap := snd (class_body h0) |} in
     h0 !! c_completions cls = None ∧
     heap s !! c_completions cls = Some [] ∧
     completions s = c_completions cls ∧
     valid s = false ∧
     async_completions_ready s = false) ∧
  (∀ (cls : ClassAttrs) (h : Heap) (i1 i2 : Instance)
     (xs : list Candidate) (x : Candidate),
     i_completions i1 = Unset →
     i_completions i2 = Unset →
     h !! c_completions cls = Some xs →
     let s1 := {| self := i1; klass := cls; heap := h |} in
     let s2 := switch_self i2 s1 in
     completions s1 = c_completions cls ∧
     completions s2 = c_completions cls ∧
     read_completions s2 = (inr xs, s2, []) ∧
     ∃ s1',
       append_completion x s1 = (inr tt, s1', []) ∧
       read_completions (switch_self i2 s1')
       = (inr (xs ++ [x]), switch_self i2 s1', [])).
Proof.
  split.
  - intros h0 cls s. split; [apply class_body_fresh|].
    split; [apply lookup_insert_eq|]. done.
  - intros cls h i1 i2 xs x H1 H2 Hxs s1 s2.
    assert (completions s1 = c_completions cls) as Hc1
      by (unfold completions; simpl; by rewrite H1).
    assert (completions s2 = c_completions cls) as Hc2
      by (unfold completions; simpl; by rewrite H2).
    split; [done|]. split; [done|]. split.
    { apply read_completions_run. by rewrite Hc2. }
    eexists. split; [apply append_completion_run|].
    apply read_completions_run. unfold completions. simpl.
    rewrite H1, H2. simpl. by rewrite lookup_alter_eq, Hxs.
Qed.

(** ** Instances of the theorems *)

Lemma C3_needs_init_iff_witness :
  fst (fst (needs_init (touched clang_3_8) (H := serving [7])
              (Some example_view) initialised_state))
  = inr true.
Proof.
  destruct (C3_needs_init_iff (touched clang_3_8) (serving [7]) example_view
              initialised_state) as (_ & _ & Hmodified).
  eapply Hmodified.
  - vm_compute. reflexivity.
  - reflexivity.
Defined.

Lemma C6_init_binds_flags_manager_witness :
  ∃ s',
    init clang_3_8 (Some example_view) example_settings example_state
    = (inr tt, s', []) ∧
    flags_manager s'
    = Some {| use_cmake := true;
              flags_update_strategy := Merge;
              fm_cmake_prefix_paths := [str "/opt/ros"];
              search_scope :=
                {| from_folder := str "/proj/src/sub";
                   to_folder := str "/proj" |} |}.
Proof.
  destruct (C6_init_binds_flags_manager clang_3_8 example_view
              example_settings example_state (str "/proj/src/sub/a.cpp"))
    as (s' & Hrun & Hfm & _).
  - reflexivity.
  - reflexivity.
  - exists s'. split; [exact Hrun|]. rewrite Hfm. vm_compute. reflexivity.
Defined.

(** C6 as stated fails on two views that are not null. For a view object
    whose truth value is false [init] returns and binds nothing; for a view
    on a buffer that was never saved [path.dirname(None)] raises TypeError
    and nothing is bound. *)
Lemma C6_counterexample_nothing_bound :
  (init clang_3_8 (Some closed_view) example_settings example_state
   = (inr tt, example_state, []) ∧
   flags_manager example_state = None) ∧
  (init clang_3_8 (Some unsaved_view) example_settings example_state
   = (inl TypeError, example_state, []) ∧
   flags_manager example_state = None).
Proof. vm_compute. done. Qed.

Lemma C8_show_errors_steps_witness :
  let s := switch_self example_completer example_state in
  ∃ s',
    show_errors example_view (str "a.cpp:1:7: error: expected ';'") s
    = (inr tt, s',
       [ErrorsFromOutput (str "a.cpp:1:7: error: expected ';'");
        Generate example_view [example_error];
        ShowRegions example_view [example_error]]) ∧
    stored example_view <$> error_vis s = Some [old_error] ∧
    stored example_view <$> error_vis s' = Some [example_error].
Proof.
  intros s.
  destruct (C8_show_errors_steps example_view
              (str "a.cpp:1:7: error: expected ';'") s example_variant
              (generate example_view [old_error] CompileErrors_new))
    as (s' & Hrun & Hev & _).
  - reflexivity.
  - reflexivity.
  - exists s'. split; [exact Hrun|]. split; [vm_compute; reflexivity|].
    rewrite Hev. vm_compute. reflexivity.
Defined.

Lemma C9_class_defaults_are_shared_witness :
  let s1 := example_state in
  ∃ s1',
    append_completion example_candidate s1 = (inr tt, s1', []) ∧
    read_completions (switch_self example_completer s1')
    = (inr [example_candidate], switch_self example_completer s1', []).
Proof.
  intros s1. destruct C9_class_defaults_are_shared as [_ Hshared].
  destruct (Hshared example_class example_heap new_instance example_completer
              [] example_candidate) as (_ & _ & _ & Happend).
  - reflexivity.
  - reflexivity.
  - vm_compute. reflexivity.
  - exact Happend.
Defined.

Lemma C10_init_without_view_witness :
  init clang_3_8 None example_settings example_state
  = (inr tt, example_state, []) ∧
  init clang_3_8 (Some closed_view) example_settings example_state
  = (inr tt, example_state, []).
Proof.
  split.
  - apply (C10_init_without_view clang_3_8 None example_settings example_state).
    reflexivity.
  - apply (C10_init_without_view clang_3_8 (Some closed_view) example_settings
             example_state).
    reflexivity.
Defined.

(** ** Runs of the methods *)

Example apple_10_0_reads_0_0 :
  fst (construct apple_10_0 example_tools example_class example_heap clangpp)
  = inr (set_error_vis (Some CompileErrors_new)
           (set_version_str (Some (str "0.0")) new_instance)).
Proof. vm_compute. reflexivity. Qed.

Example needs_init_new_completer :
  needs_init clang_3_8 (H := serving [7]) (Some example_view) example_state
  = (inr true, example_state,
     [Log DEBUG " flags handler not initialized. Do it."]).
Proof. vm_compute. reflexivity. Qed.

Example needs_init_view_served :
  fst (fst (needs_init clang_3_8 (H := serving [7]) (Some example_view)
              initialised_state))
  = inr false.
Proof. vm_compute. reflexivity. Qed.

Example needs_init_view_not_served :
  fst (fst (needs_init clang_3_8 (H := serving [3]) (Some example_view)
              initialised_state))
  = inr true.
Proof. vm_compute. reflexivity. Qed.

Example needs_init_file_modified :
  fst (fst (needs_init (touched clang_3_8) (H := serving [7]) (Some example_view)
              initialised_state))
  = inr true.
Proof. vm_compute. reflexivity. Qed.

(** The base class has no [exists_for_view] of its own. *)
Example needs_init_abstract :
  fst (fst (needs_init clang_3_8 (H := BaseCompleter) (Some example_view)
              initialised_state))
  = inl (NotImplementedError "calling abstract method").
Proof. vm_compute. reflexivity. Qed.

(** A completer that [__init__] built has no compiler variant. *)
Example show_errors_without_variant :
  show_errors example_view [] example_state
  = (inl AttributeError, example_state, []).
Proof. vm_compute. reflexivity. Qed.

(** * Further properties of the code *)

(** ** [run_command]: calls, exceptions, decoding *)

Section RunCommandMore.

Context (host : Host).

(** X1. [run_command] changes nothing in the completer and starts exactly
    one subprocess, whatever the outcome: the command and the [shell] flag
    are those it was given, and the console is hidden exactly on Windows. *)
Theorem run_command_one_call (command : text) (shell : bool) (s : State) :
  state_of (run_command host command shell s) = s ∧
  subprocess_calls (trace_of (run_command host command shell s))
  = [CheckOutput command shell (on_windows host)].
Proof.
  destruct (spawn host command shell) as [rc out|] eqn:H.
  - destruct (decide (rc = 0%Z)) as [->|Hne].
    + by rewrite (run_command_exit_zero _ _ _ _ _ H).
    + rewrite (run_command_exit_nonzero _ _ _ _ _ _ H Hne).
      by destruct (decode_utf8 out).
  - rewrite (run_command_not_started _ _ _ _ _ H).
    destruct e; try done. by destruct (decode_utf8 output).
Qed.

(** X2. The exit code never reaches the caller: [run_command] raises no
    CalledProcessError. For a process that exited it returns a text, but
    for a code other than 0 with output that is not UTF-8, where it raises
    UnicodeDecodeError. An exception with which [check_output] itself ended
    before any process ran passes to the caller as it is. [run_command]
    raises nothing else. *)
Theorem run_command_exceptions (command : text) (shell : bool) (s : State) :
  let r := result_of (run_command host command shell s) in
  (∀ returncode output, r ≠ inl (CalledProcessError returncode output)) ∧
  (∀ returncode output,
     spawn host command shell = Exited returncode output →
     (r = inl UnicodeDecodeError ↔
        returncode ≠ 0%Z ∧ decode_utf8 output = None) ∧
     (r ≠ inl UnicodeDecodeError → ∃ output_text, r = inr output_text)) ∧
  (∀ e, spawn host command shell = NotStarted e →
        (∀ returncode output, e ≠ CalledProcessError returncode output) →
        r = inl e) ∧
  (∀ e, r = inl e →
        e = UnicodeDecodeError ∨ spawn host command shell = NotStarted e).
Proof.
  intros r. subst r. unfold result_of.
  destruct (spawn host command shell) as [rc out|e0] eqn:H.
  - destruct (decide (rc = 0%Z)) as [->|Hne].
    + rewrite (run_command_exit_zero _ _ _ _ _ H). simpl.
      split; [done|]. split; [|split; [done|done]].
      intros rc o [= <- <-]. split; [|eauto].
      split; [done|]. by intros [? _].
    + rewrite (run_command_exit_nonzero _ _ _ _ _ _ H Hne).
      destruct (decode_utf8 out) eqn:Hd; simpl.
      * split; [done|]. split; [|split; [done|done]].
        intros rc' o [= <- <-]. rewrite Hd. split; [|eauto].
        split; [done|]. by intros [_ ?].
      * split; [done|]. split; [|split; [done|]].
        -- intros rc' o [= <- <-]. rewrite Hd. split; [done|]. done.
        -- intros e [= <-]. by left.
  - rewrite (run_command_not_started _ _ _ _ _ H).
    split; [|split; [done|split]].
    + intros rc o. destruct e0; try done. by destruct (decode_utf8 output).
    + intros e [= <-] Hnot. destruct e0; try done. by destruct (Hnot returncode output).
    + intros e. destruct e0; simpl; try (intros [= <-]; by right).
      destruct (decode_utf8 output); simpl; [done|]. intros [= <-]. by left.
Qed.

(** X3. On exit code 0 the text has one character a byte of the output,
    each below U+0100, and the output is read back from the text. *)
Theorem run_command_exit_zero_latin1 (command : text) (shell : bool)
    (output : list byte) (s : State) :
  spawn host command shell = Exited 0 output →
  ∃ output_text,
    result_of (run_command host command shell s) = inr output_text ∧
    length output_text = length output ∧
    Forall (fun c => c < 256) output_text ∧
    List.map Byte.of_N output_text = List.map Some output.
Proof.
  intros H. exists (join_map_chr output).
  rewrite (run_command_exit_zero _ _ _ _ _ H). split; [done|].
  unfold join_map_chr, chr. split; [by rewrite length_map|]. split.
  - apply Forall_map, Forall_forall. intros b _. simpl.
    pose proof (Byte.to_N_bounded b). lia.
  - rewrite List.map_map. apply List.map_ext. intros b. apply Byte.of_to_N.
Qed.

End RunCommandMore.

Lemma run_command_exit_zero_latin1_witness :
  ∃ output_text,
    result_of (run_command (example_host "Linux" (Exited 0 latin1_diagnostic))
                 (str "clang++ a.cpp") true example_state)
    = inr output_text ∧
    List.map Byte.of_N output_text = List.map Some latin1_diagnostic.
Proof.
  destruct (run_command_exit_zero_latin1
              (example_host "Linux" (Exited 0 latin1_diagnostic))
              (str "clang++ a.cpp") true latin1_diagnostic example_state)
    as (output_text & Hrun & _ & _ & Hback).
  - reflexivity.
  - exists output_text. by split.
Defined.

(** A multi-byte sequence gives one character: the decoded text is never
    longer than the output, and as long only for output in ASCII. *)
Lemma utf8_decode_length (n : nat) : ∀ (bs : list N) (t : text),
  (length bs ≤ n)%nat →
  utf8_decode_N bs = Some t →
  (length t ≤ length bs)%nat ∧
  (length t = length bs → Forall (fun b => b < 0x80) bs).
Proof.
  induction n as [|n IH]; intros bs t Hlen Hdec.
  - destruct bs; [|simpl in Hlen; lia]. simpl in Hdec. by simplify_eq.
  - destruct bs as [|b0 r0]; [simpl in Hdec; by simplify_eq|].
    cbn [utf8_decode_N] in Hdec. simpl in Hlen.
    destruct (b0 <? 0x80) eqn:Hb0.
    { apply fmap_Some in Hdec as (t' & Hdec & ->).
      destruct (IH r0 t' ltac:(lia) Hdec) as [Hle Heq]. simpl.
      split; [lia|]. intros Hsame. constructor; [by apply N.ltb_lt|].
      apply Heq. lia. }
    destruct (in_range 0xC2 0xDF b0).
    { destruct r0 as [|b1 r1]; [done|].
      destruct (continuation b1); [|done].
      apply fmap_Some in Hdec as (t' & Hdec & ->). simpl in *.
      destruct (IH r1 t' ltac:(lia) Hdec) as [Hle _]. split; lia. }
    destruct (in_range 0xE0 0xEF b0).
    { destruct r0 as [|b1 [|b2 r2]]; [done..|].
      destruct (_ && _); [|done].
      apply fmap_Some in Hdec as (t' & Hdec & ->). simpl in *.
      destruct (IH r2 t' ltac:(lia) Hdec) as [Hle _]. split; lia. }
    destruct (in_range 0xF0 0xF4 b0); [|done].
    destruct r0 as [|b1 [|b2 [|b3 r3]]]; [done..|].
    destruct (_ && _); [|done].
    apply fmap_Some in Hdec as (t' & Hdec & ->). simpl in *.
    destruct (IH r3 t' ltac:(lia) Hdec) as [Hle _]. split; lia.
Qed.

(** The two decodings of [run_command] give one text on ASCII only. *)
Lemma decodings_agree_iff_ascii (output : list byte) :
  decode_utf8 output = Some (join_map_chr output) ↔ ascii_bytes output.
Proof.
  split; [|apply decode_utf8_ascii].
  intros Hdec. unfold decode_utf8, join_map_chr, chr in Hdec.
  destruct (utf8_decode_length _ _ _ (le_n _) Hdec) as [_ Hascii].
  unfold ascii_bytes.
  apply (proj1 (Forall_map Byte.to_N (fun b => b < 0x80) output)), Hascii.
  by rewrite !length_map.
Qed.

(** X4. The text of a failed run (line 251) is the text the same output
    gives with exit code 0 (line 249) if and only if the output is in
    ASCII: on any other output the two branches differ, by another text or
    by an exception. *)
Theorem run_command_branches_agree_iff_ascii (host : Host) (command : text)
    (shell : bool) (returncode : Z) (output : list byte) (s : State) :
  returncode ≠ 0%Z →
  result_of (run_command (with_outcome host (Exited returncode output))
               command shell s)
  = result_of (run_command (with_outcome host (Exited 0 output))
                 command shell s)
  ↔ ascii_bytes output.
Proof.
  intros Hne.
  rewrite (run_command_exit_zero (with_outcome host (Exited 0 output))
             command shell output s eq_refl).
  rewrite (run_command_exit_nonzero
             (with_outcome host (Exited returncode output))
             command shell returncode output s eq_refl Hne).
  rewrite <- decodings_agree_iff_ascii. unfold result_of.
  destruct (decode_utf8 output); simpl; split; congruence.
Qed.

Lemma run_command_branches_agree_iff_ascii_witness :
  result_of (run_command (with_outcome clang_3_8 (Exited 1 latin1_diagnostic))
               (str "clang++ a.cpp") true example_state)
  ≠ result_of (run_command (with_outcome clang_3_8 (Exited 0 latin1_diagnostic))
                 (str "clang++ a.cpp") true example_state).
Proof.
  intros Heq.
  apply (run_command_branches_agree_iff_ascii clang_3_8 (str "clang++ a.cpp")
           true 1 latin1_diagnostic example_state) in Heq.
  - apply decodings_agree_iff_ascii in Heq. vm_compute in Heq. discriminate.
  - discriminate.
Defined.

(** ** The search of the version: what follows and what precedes *)

Section SearchMore.

Variable digit : char -> bool.

Lemma search_Some_length (s : text) : ∀ i m,
  search digit s = Some (i, m) → (i + 3 ≤ length s)%nat.
Proof.
  intros i m H. apply search_Some in H as ((a & c & -> & _) & Ho & _).
  destruct Ho as (pre & post & -> & <-). rewrite !length_app. simpl. lia.
Qed.

(** X5. Only the first match counts: the text after it has no part in the
    result of the search. *)
Theorem search_ignores_what_follows (s suffix : text) : ∀ i m,
  search digit s = Some (i, m) → search digit (s ++ suffix) = Some (i, m).
Proof.
  induction s as [|x s IH]; intros i m; [done|].
  cbn [search app].
  destruct (match_here digit (x :: s)) as [m0|] eqn:Hhere.
  - intros [= <- <-].
    assert (match_here digit (x :: s ++ suffix) = Some m0) as ->; [|done].
    unfold match_here in *. by destruct s as [|b [|c tl]].
  - destruct (search digit s) as [[i' m']|] eqn:Hs; [|done].
    intros [= <- <-]. pose proof (search_Some_length _ _ _ Hs) as Hlen.
    assert (match_here digit (x :: s ++ suffix) = None) as ->.
    { unfold match_here in *.
      destruct s as [|b [|c tl]]; simpl in Hlen; [lia..|done]. }
    by rewrite (IH _ _ eq_refl).
Qed.

(** X6. A major version of two digits loses its first digit. When the text
    before [d1 d2 . d3] and [d1] has no match, and [d2], [d3] are digits,
    the search gives [d2 . d3], one character after [d1]. *)
Theorem search_two_digit_major (pre post : text) (d1 d2 d3 : char) :
  d1 ≠ dot → d2 ≠ dot →
  digit d2 = true → digit d3 = true →
  search digit (pre ++ [d1]) = None →
  search digit (pre ++ d1 :: d2 :: dot :: d3 :: post)
  = Some (S (length pre), [d2; dot; d3]).
Proof.
  intros H1 H2 Hd2 Hd3.
  assert ((d1 =? dot) = false) as E1 by (by apply N.eqb_neq).
  assert ((d2 =? dot) = false) as E2 by (by apply N.eqb_neq).
  induction pre as [|x pre IH]; intros Hnone.
  - cbn [app length search]. unfold match_here at 1.
    rewrite E2, andb_false_r. cbn [andb]. unfold match_here at 1.
    by rewrite Hd2, Hd3, N.eqb_refl.
  - cbn [app search] in Hnone.
    destruct (match_here digit (x :: pre ++ [d1])) eqn:Hhere; [done|].
    destruct (search digit (pre ++ [d1])) as [[? ?]|] eqn:Hs; [done|].
    cbn [app length search].
    assert (match_here digit (x :: pre ++ d1 :: d2 :: dot :: d3 :: post) = None)
      as ->.
    { unfold match_here in *. destruct pre as [|y [|z tl]]; simpl in *.
      - by rewrite E1, andb_false_r.
      - done.
      - done. }
    by rewrite (IH eq_refl).
Qed.

End SearchMore.

Lemma search_ignores_what_follows_witness :
  search ascii_digit (str "clang version 3.8.0" ++ str " (tags/RELEASE_380)")
  = Some (14%nat, str "3.8").
Proof.
  apply (search_ignores_what_follows ascii_digit (str "clang version 3.8.0")).
  vm_compute. reflexivity.
Defined.

Lemma search_two_digit_major_witness :
  search ascii_digit (str "Apple LLVM version 10.0.0 (clang-1000.11.45.2)")
  = Some (20%nat, str "0.0").
Proof.
  apply (search_two_digit_major ascii_digit (str "Apple LLVM version ")
           (str ".0 (clang-1000.11.45.2)") 49 48 48).
  - discriminate.
  - discriminate.
  - reflexivity.
  - reflexivity.
  - vm_compute. reflexivity.
Defined.

(** X7. The test [version_str > "3.8"] of line 73 on a token of ASCII
    digits: the token is above the threshold exactly when the number
    [10 * major + minor] is above 38. *)
Theorem threshold_on_token (a c : char) :
  ascii_digit a = true → ascii_digit c = true →
  str_gt [a; dot; c] (str "3.8") = (38 <? 10 * (a - 48) + (c - 48)).
Proof.
  unfold ascii_digit, in_range. intros Ha Hc.
  apply andb_prop in Ha as [Ha1 Ha2]. apply andb_prop in Hc as [Hc1 Hc2].
  apply N.leb_le in Ha1, Ha2, Hc1, Hc2.
  unfold str_gt. change (str "3.8") with [51; 46; 56]. unfold dot.
  cbn [str_lt]. change (46 <? 46) with false. cbv iota.
  destruct (N.ltb_spec 51 a); [symmetry; apply N.ltb_lt; lia|].
  destruct (N.ltb_spec a 51); [symmetry; apply N.ltb_ge; lia|].
  destruct (N.ltb_spec 56 c); [symmetry; apply N.ltb_lt; lia|].
  destruct (N.ltb_spec c 56); symmetry; apply N.ltb_ge; lia.
Qed.

Lemma threshold_on_token_witness :
  str_gt (str "3.9") (str "3.8") = true.
Proof.
  apply (threshold_on_token 51 57); reflexivity.
Defined.

(** ** The constructor: calls, failures, result *)

Section ConstructorMore.

Context (host : Host) (tools : Tools).

Lemma __init___probe_fails clang_binary s e t :
  not_str clang_binary = false →
  run_command host (version_cmd clang_binary) true s = (inl e, s, t) →
  __init__ host tools clang_binary s
  = (inl e, s, Log INFO " Getting version from command: `%s`" :: t).
Proof.
  intros Hbin Hrun. unfold __init__, version_cmd in *. rewrite Hbin.
  rewrite bind_run. unfold log at 1, emit at 1. cbv beta iota.
  by rewrite bind_run, Hrun.
Qed.

(** The constructor with a binary, case by case. *)
Lemma construct_with_binary cls h clang_binary :
  not_str clang_binary = false →
  let probe := run_command host (version_cmd clang_binary) true (blank_state cls h) in
  let start := Log INFO " Getting version from command: `%s`" :: trace_of probe in
  construct host tools cls h clang_binary
  = match result_of probe with
    | inl e => (inl e, start)
    | inr output_text =>
        match search (re_digit host) output_text with
        | None =>
            (inl (RuntimeError " Couldn't find clang version in clang version output."),
             start)
        | Some (_, m) =>
            if remap_applies host m then
              match OSX_CLANG_VERSION_DICT tools !! m with
              | Some upstream =>
                  (inr (built_completer upstream),
                   start ++
                   [Log WARNING " OSX version %s reported. Reducing it to %s. Info: %s";
                    Log INFO " Found clang version: %s"])
              | None => (inl (KeyError m), start)
              end
            else
              (inr (built_completer m),
               start ++ [Log INFO " Found clang version: %s"])
        end
    end.
Proof.
  intros Hbin probe start. subst start.
  destruct probe as [[r s'] t] eqn:Hprobe. subst probe.
  pose proof (run_command_one_call host (version_cmd clang_binary) true
                (blank_state cls h)) as [Hstate _].
  rewrite Hprobe in Hstate. unfold state_of in Hstate. simpl in Hstate.
  subst s'. unfold result_of, trace_of. simpl.
  unfold construct. fold (blank_state cls h). destruct r as [e|output_text].
  - by rewrite (__init___probe_fails _ _ _ _ Hbin Hprobe).
  - rewrite (__init___after_probe _ _ _ _ _ _ Hbin Hprobe).
    destruct (search (re_digit host) output_text) as [[i m]|]; [|done].
    rewrite bind_run.
    rewrite (remap_version_eq host tools
               (with_self (set_version_str (Some m)) (blank_state cls h)) m eq_refl).
    destruct (remap_applies host m).
    + destruct (OSX_CLANG_VERSION_DICT tools !! m); simpl;
        by rewrite ?app_nil_r.
    + simpl. by rewrite ?app_nil_r.
Qed.

Lemma subprocess_calls_app (t1 t2 : list Event) :
  subprocess_calls (t1 ++ t2) = subprocess_calls t1 ++ subprocess_calls t2.
Proof. apply List.filter_app. Qed.

(** X8. With a binary, the constructor starts exactly one subprocess,
    whether it then succeeds or fails: the command is the binary followed by
    [" -v"], run through the shell. *)
Theorem constructor_one_probe cls h clang_binary :
  not_str clang_binary = false →
  subprocess_calls (snd (construct host tools cls h clang_binary))
  = [CheckOutput (version_cmd clang_binary) true (on_windows host)].
Proof.
  intros Hbin. rewrite (construct_with_binary cls h clang_binary Hbin).
  pose proof (run_command_one_call host (version_cmd clang_binary) true
                (blank_state cls h)) as [_ Hcalls].
  cbv zeta.
  destruct (result_of _) as [e|output_text]; [done|].
  destruct (search (re_digit host) output_text) as [[i m]|]; [|done].
  destruct (remap_applies host m).
  - destruct (OSX_CLANG_VERSION_DICT tools !! m); [|done].
    cbn [snd]. rewrite subprocess_calls_app. cbn [subprocess_calls List.filter is_check_output].
    fold (subprocess_calls (trace_of
            (run_command host (version_cmd clang_binary) true (blank_state cls h)))).
    by rewrite Hcalls.
  - cbn [snd]. rewrite subprocess_calls_app. cbn [subprocess_calls List.filter is_check_output].
    fold (subprocess_calls (trace_of
            (run_command host (version_cmd clang_binary) true (blank_state cls h)))).
    by rewrite Hcalls.
Qed.

(** X9. The exceptions of the constructor. It fails with the RuntimeError
    of line 61 when there is no binary; with the exception of [run_command],
    as it is, when the probe raised one; with the RuntimeError of line 83
    when the text of the probe has no match; with KeyError on the token when
    the branch of line 73 is taken and the table has no entry for the token.
    It fails in no other way. *)
Theorem constructor_failures cls h clang_binary e t :
  construct host tools cls h clang_binary = (inl e, t) →
  let probe := run_command host (version_cmd clang_binary) true (blank_state cls h) in
  (not_str clang_binary = true ∧ e = RuntimeError "clang binary not defined") ∨
  (not_str clang_binary = false ∧ result_of probe = inl e) ∨
  (∃ output_text,
     result_of probe = inr output_text ∧
     no_match (re_digit host) output_text ∧
     e = RuntimeError " Couldn't find clang version in clang version output.") ∨
  (∃ output_text i m,
     result_of probe = inr output_text ∧
     leftmost_match (re_digit host) output_text i m ∧
     remap_applies host m = true ∧
     OSX_CLANG_VERSION_DICT tools !! m = None ∧
     e = KeyError m).
Proof.
  intros Hc probe. destruct (not_str clang_binary) eqn:Hbin.
  { left. split; [done|]. unfold construct, __init__ in Hc.
    rewrite Hbin in Hc. simpl in Hc. congruence. }
  right. rewrite (construct_with_binary cls h clang_binary Hbin) in Hc.
  cbv zeta in Hc. fold probe in Hc.
  destruct (result_of probe) as [e'|output_text] eqn:Hr.
  - injection Hc as <- _. by left.
  - destruct (search (re_digit host) output_text) as [[i m]|] eqn:Hs.
    + destruct (remap_applies host m) eqn:Hre; [|done].
      destruct (OSX_CLANG_VERSION_DICT tools !! m) eqn:Hd; [done|].
      injection Hc as <- _. do 2 right. exists output_text, i, m.
      split; [done|]. split; [by apply search_Some|]. done.
    + injection Hc as <- _. right. left. exists output_text.
      split; [done|]. split; [by apply search_None|]. done.
Qed.

(** X10. What the constructor returns. A completer comes out of a probe
    that gave a text with a match; its version string is the leftmost token,
    or the entry of the table for that token when the branch of line 73 is
    taken; its error presenter is a new, empty one; it has no other
    attribute of its own: no compiler variant, no flags manager, no list of
    completions, no flag. *)
Theorem constructor_result cls h clang_binary completer t :
  construct host tools cls h clang_binary = (inr completer, t) →
  not_str clang_binary = false ∧
  ∃ output_text i m v,
    result_of (run_command host (version_cmd clang_binary) true
                 (blank_state cls h)) = inr output_text ∧
    leftmost_match (re_digit host) output_text i m ∧
    (if remap_applies host m
     then OSX_CLANG_VERSION_DICT tools !! m = Some v
     else v = m) ∧
    completer = built_completer v.
Proof.
  intros Hc. destruct (not_str clang_binary) eqn:Hbin.
  { unfold construct, __init__ in Hc. rewrite Hbin in Hc. done. }
  split; [done|].
  rewrite (construct_with_binary cls h clang_binary Hbin) in Hc.
  cbv zeta in Hc.
  destruct (result_of _) as [e'|output_text]; [done|].
  destruct (search (re_digit host) output_text) as [[i m]|] eqn:Hs; [|done].
  apply search_Some in Hs.
  destruct (remap_applies host m) eqn:Hre.
  - destruct (OSX_CLANG_VERSION_DICT tools !! m) as [v|] eqn:Hd; [|done].
    injection Hc as <- _. exists output_text, i, m, v. by rewrite Hre.
  - injection Hc as <- _. exists output_text, i, m, m. by rewrite Hre.
Qed.

End ConstructorMore.

(** X11. On output in ASCII the exit code of the probe has no part in the
    completer: the constructor returns the same completer, or fails with
    the same exception, as on exit code 0. *)
Theorem constructor_ignores_exit_code (host : Host) (tools : Tools) cls h
    clang_binary (returncode : Z) (output : list byte) :
  ascii_bytes output →
  fst (construct (with_outcome host (Exited returncode output)) tools cls h
         clang_binary)
  = fst (construct (with_outcome host (Exited 0 output)) tools cls h
           clang_binary).
Proof.
  intros Hascii. destruct (not_str clang_binary) eqn:Hbin.
  { unfold construct, __init__. by rewrite Hbin. }
  rewrite !construct_with_binary by done. cbv zeta.
  assert (result_of (run_command (with_outcome host (Exited returncode output))
                       (version_cmd clang_binary) true (blank_state cls h))
          = result_of (run_command (with_outcome host (Exited 0 output))
                         (version_cmd clang_binary) true (blank_state cls h)))
    as ->.
  { destruct (decide (returncode = 0%Z)) as [->|Hne]; [done|].
    by apply run_command_branches_agree_iff_ascii. }
  destruct (result_of _) as [e|output_text]; [done|].
  change (re_digit (with_outcome host (Exited returncode output)))
    with (re_digit (with_outcome host (Exited 0 output))).
  destruct (search _ output_text) as [[i m]|]; [|done].
  change (remap_applies (with_outcome host (Exited returncode output)) m)
    with (remap_applies (with_outcome host (Exited 0 output)) m).
  destruct (remap_applies _ m); [|done].
  by destruct (OSX_CLANG_VERSION_DICT tools !! m).
Qed.

Lemma constructor_one_probe_witness :
  subprocess_calls
    (snd (construct apple_9_1 example_tools example_class example_heap clangpp))
  = [CheckOutput (str "clang++ -v") true false].
Proof.
  apply (constructor_one_probe apple_9_1 example_tools example_class
           example_heap clangpp).
  reflexivity.
Defined.

Lemma constructor_failures_witness :
  ∃ output_text i,
    result_of (run_command apple_9_1 (version_cmd clangpp) true
                 (blank_state example_class example_heap)) = inr output_text ∧
    leftmost_match ascii_digit output_text i (str "9.1").
Proof.
  destruct (constructor_failures apple_9_1 example_tools example_class
              example_heap clangpp (KeyError (str "9.1"))
              (snd (construct apple_9_1 example_tools example_class
                      example_heap clangpp)))
    as [[_ ?]|[[_ Hprobe]|[(? & _ & _ & ?)|
        (output_text & i & m & Hr & Hm & _ & _ & Hkey)]]]; try discriminate.
  - vm_compute. reflexivity.
  - injection Hkey as <-. by exists output_text, i.
Defined.

Lemma constructor_result_witness :
  ∃ v,
    fst (construct clang_3_8 example_tools example_class example_heap clangpp)
    = inr (built_completer v).
Proof.
  destruct (construct clang_3_8 example_tools example_class example_heap clangpp)
    as [[e|c] t] eqn:Hc.
  - vm_compute in Hc. discriminate.
  - apply constructor_result in Hc as (_ & output_text & i & m & v & _ & _ & _ & ->).
    by exists v.
Defined.

Lemma constructor_ignores_exit_code_witness :
  fst (construct (with_outcome clang_3_8 (Exited 1 (bytes "clang version 3.8.0")))
         example_tools example_class example_heap clangpp)
  = fst (construct (with_outcome clang_3_8 (Exited 0 (bytes "clang version 3.8.0")))
           example_tools example_class example_heap clangpp).
Proof.
  apply constructor_ignores_exit_code.
  unfold ascii_bytes, bytes. simpl.
  repeat (constructor; [reflexivity|]). constructor.
Defined.

(** ** The life of a completer *)

Section LifecycleMore.

Context (host : Host).

(** X12. [needs_init] itself changes nothing in the completer: with a
    variant whose [exists_for_view] leaves the state as it is, the state
    after [needs_init] is the state before, for every view. *)
Theorem needs_init_frame (variant : Completer) (view : option View) (s : State) :
  (∀ id s0, state_of (exists_for_view id s0) = s0) →
  state_of (needs_init host view s) = s.
Proof.
  intros Hframe. unfold needs_init, state_of. rewrite bind_run.
  unfold gets at 1. cbv beta iota.
  destruct (flags_manager s) as [fm|]; [|done].
  destruct (any_file_modified host fm); [done|].
  rewrite bind_run. destruct view as [v|]; [|done]. simpl.
  rewrite bind_run. specialize (Hframe (buffer_id v) s). unfold state_of in Hframe.
  destruct (exists_for_view (buffer_id v) s) as [[[e|[|]] s1] t1]; simpl in *; done.
Qed.

(** X13. The first two tests of [needs_init] look neither at the view nor
    at the variant: without a flags manager, or with a modified file, the
    answer is [True] for every view, a null one too, and for every variant,
    the base class too. With a flags manager and no modified file a null
    view raises AttributeError. *)
Theorem needs_init_short_circuit (variant : Completer) (s : State) :
  (flags_manager s = None ∨
   (∃ fm, flags_manager s = Some fm ∧ any_file_modified host fm = true) →
   ∀ view, ∃ fmt, needs_init host view s = (inr true, s, [Log DEBUG fmt])) ∧
  (∀ fm, flags_manager s = Some fm → any_file_modified host fm = false →
         needs_init host None s = (inl AttributeError, s, [])).
Proof.
  split.
  - intros Hcase view. unfold needs_init. rewrite bind_run.
    unfold gets at 1. cbv beta iota.
    destruct Hcase as [->|(fm & -> & ->)]; by eexists.
  - intros fm Hfm Hmod. unfold needs_init. rewrite bind_run.
    unfold gets at 1. cbv beta iota. by rewrite Hfm, Hmod.
Qed.

(** X14. The base class never answers [False]: its [exists_for_view] is
    abstract, so a completer without a variant is told to initialise or
    gets an exception. *)
Theorem needs_init_base_never_false (view : option View) (s : State) :
  result_of (needs_init host (H := BaseCompleter) view s) ≠ inr false.
Proof.
  unfold needs_init, result_of. rewrite bind_run. unfold gets at 1.
  cbv beta iota. destruct (flags_manager s) as [fm|]; [|done].
  destruct (any_file_modified host fm); [done|]. by destruct view.
Qed.

(** X17. After [init] for a view that is true and has a file name the
    first test of [needs_init] is passed: the answer depends on the files
    and on the variant only. *)
Theorem needs_init_after_init (variant : Completer) (view view' : View)
    (settings : Settings) (s : State) (file : text) :
  truth view = true →
  file_name view = Some file →
  let s' := state_of (init host (Some view) settings s) in
  ∃ fm,
    flags_manager s' = Some fm ∧
    result_of (needs_init host (Some view') s')
    = if any_file_modified host fm then inr true
      else
        match result_of (exists_for_view (buffer_id view') s') with
        | inr has_entry => inr (negb has_entry)
        | inl e => inl e
        end.
Proof.
  intros Hview Hfile s'. subst s'. unfold init, not_view.
  rewrite Hview, Hfile.
  unfold state_of at 1 2 3. simpl. eexists. split; [reflexivity|].
  unfold result_of. by rewrite needs_init_answer.
Qed.

(** What [init] does, by the view. *)
Lemma init_run (view : option View) (settings : Settings) (s : State) :
  init host view settings s
  = match view with
    | Some v =>
        if truth v then
          match file_name v with
          | Some file =>
              (inr tt,
               with_self (set_flags_manager (Some
                 {| use_cmake := generate_flags_with_cmake settings;
                    flags_update_strategy := cmake_flags_priority settings;
                    fm_cmake_prefix_paths := cmake_prefix_paths settings;
                    search_scope :=
                      {| from_folder := path_dirname host file;
                         to_folder := project_base_folder settings |} |})) s,
               [])
          | None => (inl TypeError, s, [])
          end
        else (inr tt, s, [])
    | None => (inr tt, s, [])
    end.
Proof.
  unfold init, not_view. destruct view as [v|]; [|done].
  destruct (truth v); [|done]. simpl. by destruct (file_name v).
Qed.

(** X18. The last [init] wins: an earlier call of [init], for whatever
    view and settings, leaves no mark on the state that [init] produces for
    a view that is true and has a file name. In particular [init] twice is
    [init] once. *)
Theorem init_last_wins (view1 : option View) (settings1 : Settings)
    (view2 : View) (settings2 : Settings) (s : State) (file2 : text) :
  truth view2 = true →
  file_name view2 = Some file2 →
  state_of (init host (Some view2) settings2
              (state_of (init host view1 settings1 s)))
  = state_of (init host (Some view2) settings2 s).
Proof.
  intros Hview Hfile. rewrite !init_run, Hview, Hfile.
  destruct view1 as [v1|]; [|done].
  destruct (truth v1); [|done]. by destruct (file_name v1).
Qed.


(** X20. [show_errors] fails with AttributeError only, and only before
    anything is stored or shown: the state is then the state before the
    call, and the only call that may have been made is the parse of the
    output. *)
Theorem show_errors_fails_early (view : View) (output : text) (s s' : State)
    (e : Exn) (t : list Event) :
  show_errors view output s = (inl e, s', t) →
  e = AttributeError ∧ s' = s ∧
  ((compiler_variant s = None ∧ t = []) ∨
   (error_vis s = None ∧ t = [ErrorsFromOutput output])).
Proof.
  unfold show_errors. rewrite bind_run. unfold gets at 1. cbv beta iota.
  destruct (compiler_variant s) as [cv|] eqn:Hcv.
  2:{ intros [= <- <- <-]. split; [done|]. split; [done|]. by left. }
  rewrite bind_run. unfold emit at 1. cbv beta iota.
  rewrite bind_run. unfold gets at 1. cbv beta iota.
  destruct (error_vis s) as [ev|] eqn:Hev.
  2:{ intros [= <- <- <-]. split; [done|]. split; [done|]. by right. }
  rewrite bind_run. unfold emit at 1. cbv beta iota.
  rewrite bind_run. unfold modify at 1. cbv beta iota.
  rewrite bind_run. unfold gets at 1. cbv beta iota.
  assert (error_vis (update_error_vis
                       (generate view (errors_from_output cv output)) s)
          = Some (generate view (errors_from_output cv output) ev)) as ->.
  { unfold error_vis, update_error_vis in *.
    destruct (i_error_vis (self s)) as [|v] eqn:Hi; simpl in *.
    - by rewrite Hi, Hev.
    - by rewrite Hev. }
  unfold emit. simpl. done.
Qed.

Lemma show_errors_state (view : View) (output : text) (s : State) :
  state_of (show_errors view output s)
  = match compiler_variant s, error_vis s with
    | Some cv, Some _ =>
        update_error_vis (generate view (errors_from_output cv output)) s
    | _, _ => s
    end.
Proof.
  unfold show_errors, state_of. rewrite bind_run. unfold gets at 1.
  cbv beta iota. destruct (compiler_variant s) as [cv|]; [|done].
  rewrite bind_run. unfold emit at 1. cbv beta iota.
  rewrite bind_run. unfold gets at 1. cbv beta iota.
  destruct (error_vis s) as [ev|]; [|done].
  rewrite bind_run. unfold emit at 1. cbv beta iota.
  rewrite bind_run. unfold modify at 1. cbv beta iota.
  rewrite bind_run. unfold gets at 1. cbv beta iota.
  destruct (error_vis (update_error_vis
                         (generate view (errors_from_output cv output)) s));
    reflexivity.
Qed.

(** X21. [show_errors] changes the error presenter and nothing else: the
    heap and every other attribute of the completer are after the call what
    they were before, whether the call succeeds or fails. *)
Theorem show_errors_changes_presenter_only (view : View) (output : text)
    (s : State) :
  let s' := state_of (show_errors view output s) in
  heap s' = heap s ∧
  version_str s' = version_str s ∧
  compiler_variant s' = compiler_variant s ∧
  flags_manager s' = flags_manager s ∧
  completions s' = completions s ∧
  valid s' = valid s ∧
  async_completions_ready s' = async_completions_ready s.
Proof.
  cbv zeta. rewrite show_errors_state.
  destruct (compiler_variant s) as [cv|] eqn:Hcv; [|done].
  destruct (error_vis s) as [ev|] eqn:Hev; [|done].
  rewrite <- Hcv. unfold update_error_vis.
  destruct (i_error_vis (self s)) eqn:Hi; repeat split;
    unfold version_str, compiler_variant, flags_manager, completions, valid,
      async_completions_ready; simpl; reflexivity.
Qed.

End LifecycleMore.

(** ** A completer fresh from the constructor *)

(** X15. As long as the class has no flags manager, a completer that the
    constructor returned needs [init]: [needs_init] answers [True] for every
    view and every variant. *)
Theorem new_completer_needs_init (host : Host) (tools : Tools) cls h
    clang_binary completer t (variant : Completer) (view : option View) :
  c_flags_manager cls = None →
  construct host tools cls h clang_binary = (inr completer, t) →
  result_of (needs_init host view {| self := completer; klass := cls; heap := h |})
  = inr true.
Proof.
  intros Hcls Hc.
  apply constructor_result in Hc as (_ & output_text & i & m & v & _ & _ & _ & ->).
  destruct (needs_init_short_circuit host variant
              {| self := built_completer v; klass := cls; heap := h |})
    as [Hshort _].
  destruct (Hshort (or_introl Hcls) view) as [fmt ->]. done.
Qed.

(** X16. The constructor binds no compiler variant: as long as the class
    has none, [show_errors] on a completer that the constructor returned
    raises AttributeError before any call, and changes nothing. A variant
    of the completer has to set [compiler_variant] itself. *)
Theorem new_completer_cannot_show_errors (host : Host) (tools : Tools) cls h
    clang_binary completer t (view : View) (output : text) :
  c_compiler_variant cls = None →
  construct host tools cls h clang_binary = (inr completer, t) →
  show_errors view output {| self := completer; klass := cls; heap := h |}
  = (inl AttributeError, {| self := completer; klass := cls; heap := h |}, []).
Proof.
  intros Hcls Hc.
  apply constructor_result in Hc as (_ & output_text & i & m & v & _ & _ & _ & ->).
  unfold show_errors. rewrite bind_run. unfold gets at 1. cbv beta iota.
  unfold compiler_variant. simpl. by rewrite Hcls.
Qed.

Lemma new_completer_needs_init_witness :
  result_of (needs_init clang_3_8 (H := serving [7]) (Some example_view)
               {| self := built_completer (str "3.8");
                  klass := example_class; heap := example_heap |})
  = inr true.
Proof.
  apply (new_completer_needs_init clang_3_8 example_tools example_class
           example_heap clangpp (built_completer (str "3.8"))
           (snd (construct clang_3_8 example_tools example_class example_heap
                   clangpp))).
  - reflexivity.
  - vm_compute. reflexivity.
Defined.

Lemma new_completer_cannot_show_errors_witness :
  result_of (show_errors example_view (str "a.cpp:1:7: error: expected ';'")
               {| self := built_completer (str "3.8");
                  klass := example_class; heap := example_heap |})
  = inl AttributeError.
Proof.
  rewrite (new_completer_cannot_show_errors clang_3_8 example_tools
             example_class example_heap clangpp (built_completer (str "3.8"))
             (snd (construct clang_3_8 example_tools example_class example_heap
                     clangpp))).
  - reflexivity.
  - reflexivity.
  - vm_compute. reflexivity.
Defined.

Lemma needs_init_frame_witness :
  state_of (needs_init clang_3_8 (H := serving [7]) (Some example_view)
              initialised_state)
  = initialised_state.
Proof.
  apply (needs_init_frame clang_3_8 (serving [7])).
  intros id s0. reflexivity.
Defined.

Lemma needs_init_short_circuit_witness :
  ∃ fmt,
    needs_init clang_3_8 (H := BaseCompleter) None example_state
    = (inr true, example_state, [Log DEBUG fmt]).
Proof.
  destruct (needs_init_short_circuit clang_3_8 BaseCompleter example_state)
    as [Hshort _].
  apply Hshort. left. reflexivity.
Defined.

Lemma needs_init_after_init_witness :
  result_of (needs_init clang_3_8 (H := serving [7]) (Some example_view)
               (state_of (init clang_3_8 (Some example_view) example_settings
                            example_state)))
  = inr false.
Proof.
  destruct (needs_init_after_init clang_3_8 (serving [7]) example_view
              example_view example_settings example_state
              (str "/proj/src/sub/a.cpp"))
    as (fm & _ & ->).
  - reflexivity.
  - reflexivity.
  - reflexivity.
Defined.

Lemma init_last_wins_witness :
  state_of (init clang_3_8 (Some example_view) example_settings
              (state_of (init clang_3_8 (Some example_view) example_settings
                           example_state)))
  = state_of (init clang_3_8 (Some example_view) example_settings example_state).
Proof.
  apply (init_last_wins clang_3_8 (Some example_view) example_settings
           example_view example_settings example_state
           (str "/proj/src/sub/a.cpp")).
  - reflexivity.
  - reflexivity.
Defined.


Lemma run_command_exceptions_witness :
  result_of (run_command (example_host "Linux" (NotStarted ValueError))
               (str "clang" ++ 0 :: str " -v") true example_state)
  = inl ValueError.
Proof.
  destruct (run_command_exceptions (example_host "Linux" (NotStarted ValueError))
              (str "clang" ++ 0 :: str " -v") true example_state)
    as (_ & _ & Hstart & _).
  apply Hstart.
  - reflexivity.
  - discriminate.
Defined.

Lemma show_errors_fails_early_witness :
  compiler_variant example_state = None.
Proof.
  destruct (show_errors_fails_early example_view [] example_state example_state
              AttributeError [])
    as (_ & _ & [[H _]|[_ H]]).
  - vm_compute. reflexivity.
  - exact H.
  - discriminate H.
Defined.
